(** * Qprompt: the prompt engine, the menu display and the paginated menu

    A shallow embedding of [lib/qprompt.py] (version 0.10.0): [cast], [ask]
    and its presets, [run_func], [show_menu], [show_limit], the [StdinSetup] /
    [StdinAuto] context managers and [Menu.main].

    Python objects are first-order [value]s; user functions are named by an
    identifier and interpreted by an environment [env].  Reading a line is
    taking the head of the list of lines still unread on the input source;
    an exhausted source raises [EOFError] as [input()] does.  Everything the
    library prints, every action it calls and every paginated window it
    builds is appended to a log of [event]s.

    Not modelled: the [float] type (floating point), [getpass] (the
    [shw=False] read goes to the terminal, not to [sys.stdin]) and the alias
    renaming of [_format_kwargs] (options carry their short names). *)

From Stdlib Require Import ZArith List String Ascii Bool Lia.
From Stdlib Require Import DecimalString.
Import ListNotations.

Open Scope string_scope.
Open Scope list_scope.
Open Scope Z_scope.

(* ================================================================= *)
(** ** Python values *)

(** The type objects that occur as rules: [int] and [str]. *)
Inductive tytag : Type := TInt | TStr.

(** [VCast t] is the object [partial(cast, typ=t)] that [ask_int] passes as
    formatter; [VFun id name] is a user function object, [name] its
    [__name__]. *)
Inductive value : Type :=
| VNone
| VBool (b : bool)
| VInt (z : Z)
| VStr (s : string)
| VType (t : tytag)
| VCast (t : tytag)
| VFun (id : positive) (name : string).

Inductive exn : Type :=
| EOFError
| ValueError
| TypeError
| IndexError
| AttributeError
| UserError (tag : string).

Inductive result (A : Type) : Type :=
| Ok (a : A)
| Raise (e : exn).
Arguments Ok {A} a.
Arguments Raise {A} e.

Definition tytag_eqb (a b : tytag) : bool :=
  match a, b with
  | TInt, TInt | TStr, TStr => true
  | _, _ => false
  end.

(** Numbers: [bool] is a subclass of [int], [True == 1]. *)
Definition num_of (v : value) : option Z :=
  match v with
  | VBool b => Some (if b then 1 else 0)
  | VInt z => Some z
  | _ => None
  end.

(** Python's [==]. *)
Definition py_eq (a b : value) : bool :=
  match num_of a, num_of b with
  | Some x, Some y => x =? y
  | None, None =>
      match a, b with
      | VNone, VNone => true
      | VStr s, VStr t => String.eqb s t
      | VType s, VType t => tytag_eqb s t
      | VCast s, VCast t => tytag_eqb s t
      | VFun i _, VFun j _ => Pos.eqb i j
      | _, _ => false
      end
  | _, _ => false
  end.

(** [x in l]. *)
Definition py_in (x : value) (l : list value) : bool := existsb (py_eq x) l.

(** Truth value of an object. *)
Definition truthy (v : value) : bool :=
  match v with
  | VNone => false
  | VBool b => b
  | VInt z => negb (z =? 0)
  | VStr s => negb (String.eqb s "")
  | VType _ | VCast _ | VFun _ _ => true
  end.

(** [v is None] *)
Definition is_none (v : value) : bool :=
  match v with VNone => true | _ => false end.

(** [callable(v)], [hasattr(v, "__call__")] *)
Definition callable (v : value) : bool :=
  match v with
  | VType _ | VCast _ | VFun _ _ => true
  | _ => false
  end.

(** [type(v) is type] *)
Definition is_type (v : value) : bool :=
  match v with VType _ => true | _ => false end.

(* ================================================================= *)
(** ** The builtins [str] and [int] *)

Definition str_of_Z (z : Z) : string := NilZero.string_of_int (Z.to_int z).

Definition py_str (v : value) : string :=
  match v with
  | VNone => "None"
  | VBool true => "True"
  | VBool false => "False"
  | VInt z => str_of_Z z
  | VStr s => s
  | VType TInt => "<class 'int'>"
  | VType TStr => "<class 'str'>"
  | VCast TInt => "functools.partial(<function cast>, typ=<class 'int'>)"
  | VCast TStr => "functools.partial(<function cast>, typ=<class 'str'>)"
  | VFun _ name => ("<function " ++ name ++ ">")%string
  end.

Definition is_space (c : ascii) : bool :=
  let n := N_of_ascii c in
  (((9 <=? n) && (n <=? 13)) || (n =? 32))%N.

Definition digit_of (c : ascii) : option Z :=
  let n := Z.of_N (N_of_ascii c) in
  if (48 <=? n) && (n <=? 57) then Some (n - 48) else None.

Fixpoint lstrip (s : string) : string :=
  match s with
  | String c r => if is_space c then lstrip r else s
  | EmptyString => s
  end.

Fixpoint all_space (s : string) : bool :=
  match s with
  | String c r => is_space c && all_space r
  | EmptyString => true
  end.

Fixpoint parse_digits (acc : Z) (s : string) : option Z :=
  match s with
  | EmptyString => Some acc
  | String c r =>
      match digit_of c with
      | Some d => parse_digits (10 * acc + d) r
      | None => if all_space s then Some acc else None
      end
  end.

(** [int(s)] on text: surrounding white space, an optional sign, decimal
    digits.  Python 3 accepts more, which is left out here: underscores
    between digits, and white space and digits outside ASCII. *)
Definition parse_int (s : string) : option Z :=
  let s := lstrip s in
  let '(neg, body) :=
    match s with
    | String "-"%char r => (true, r)
    | String "+"%char r => (false, r)
    | _ => (false, s)
    end in
  match body with
  | String c _ =>
      match digit_of c with
      | Some _ => option_map (fun n => if neg then - n else n) (parse_digits 0 body)
      | None => None
      end
  | EmptyString => None
  end.

Definition py_int (v : value) : result value :=
  match v with
  | VBool b => Ok (VInt (if b then 1 else 0))
  | VInt z => Ok (VInt z)
  | VStr s => match parse_int s with
              | Some z => Ok (VInt z)
              | None => Raise ValueError
              end
  | _ => Raise TypeError
  end.

(** Calling a type object: [int(x)], [str(x)]. *)
Definition construct (t : tytag) (x : value) : result value :=
  match t with
  | TInt => py_int x
  | TStr => Ok (VStr (py_str x))
  end.

(* ================================================================= *)
(** ** The environment: user functions, actions, set iteration order *)

Record env : Type := {
  (** a user function applied to one argument *)
  call_fun : positive -> value -> result value;
  (** a menu action applied to its stored arguments: it returns or raises *)
  run_action : positive -> list value -> list (string * value) -> option exn;
  (** the order in which [list(set(l))] lists the elements of [l], which
      the language leaves open *)
  set_iter : list value -> list value;
  (** [sys.argv[1:]] *)
  argv : list string
}.

(** [set(l)] keeps one representative of each class of equal elements, the
    first one inserted. *)
Fixpoint py_nodup (l : list value) : list value :=
  match l with
  | [] => []
  | x :: r => x :: filter (fun y => negb (py_eq x y)) (py_nodup r)
  end.

(** [f(x)] for an arbitrary object [f]. *)
Definition call (E : env) (f x : value) : result value :=
  match f with
  | VType t => construct t x
  | VCast t => match construct t x with
               | Ok v => Ok v
               | Raise _ => Ok VNone
               end
  | VFun id _ => call_fun E id x
  | _ => Raise TypeError
  end.

(** [cast(val, typ)]: [typ(val)], and [None] when that raises. *)
Definition cast (E : env) (val typ : value) : value :=
  match call E typ val with
  | Ok v => v
  | Raise _ => VNone
  end.

(* ================================================================= *)
(** ** [sorted] *)

Fixpoint insert_by (le : value -> value -> bool) (x : value) (l : list value)
  : list value :=
  match l with
  | [] => [x]
  | y :: r => if le x y then x :: y :: r else y :: insert_by le x r
  end.

Fixpoint isort (le : value -> value -> bool) (l : list value) : list value :=
  match l with
  | [] => []
  | x :: r => insert_by le x (isort le r)
  end.

Definition num_le (a b : value) : bool :=
  match num_of a, num_of b with
  | Some x, Some y => x <=? y
  | _, _ => false
  end.

Definition str_le (a b : value) : bool :=
  match a, b with
  | VStr s, VStr t => String.leb s t
  | _, _ => false
  end.

Definition is_num (v : value) : bool :=
  match num_of v with Some _ => true | None => false end.

Definition is_str (v : value) : bool :=
  match v with VStr _ => true | _ => false end.

(** [sorted(l)] in Python 3: numbers order among themselves, text orders
    among itself, anything else raises [TypeError] as soon as two elements
    are compared. *)
Definition py_sorted (l : list value) : option (list value) :=
  if (Nat.leb (List.length l) 1) then Some l
  else if forallb is_num l then Some (isort num_le l)
  else if forallb is_str l then Some (isort str_le l)
  else None.

(* ================================================================= *)
(** ** Menu entries, events and the state of a run *)

(** [MenuEntry = namedtuple("MenuEntry", "name desc func args krgs")];
    [func] is the identifier of the bound action, if any. *)
Record MenuEntry : Type := mkEntry {
  name : string;
  desc : string;
  func : option positive;
  args : list value;
  krgs : list (string * value)
}.

(** What one iteration of [show_limit] holds when it calls [show_menu]. *)
Record window : Type := mkWindow {
  w_istart : Z;
  w_iend : Z;
  w_group : list MenuEntry;
  w_names : list string;
  w_nnext : string;
  w_nprev : string;
  w_tmpdft : value
}.

Inductive event : Type :=
| Echo (s : string)                    (* a line written by [echo] *)
| Prompt (s : string)                  (* the prompt written by [input] *)
| Called (id : positive) (a : list value) (k : list (string * value))
| Shown (w : window).                  (* a paginated window is displayed *)

(** List objects live in a store and are named by their address. *)
Definition loc : Type := nat.
Definition heap : Type := list (list value).

Definition h_get (h : heap) (l : loc) : list value := nth l h [].

Fixpoint h_set (h : heap) (l : loc) (x : list value) : heap :=
  match h, l with
  | [], _ => []
  | _ :: r, O => x :: r
  | y :: r, S n => y :: h_set r n x
  end.

Definition h_alloc (h : heap) (x : list value) : heap * loc :=
  (h ++ [x], List.length h).

(** [lst.append(v)] on the object at [l]. *)
Definition h_append (h : heap) (l : loc) (v : value) : heap :=
  h_set h l (h_get h l ++ [v]).

Record state : Type := mkState {
  s_in : list string;     (* lines still unread on [sys.stdin] *)
  s_log : list event;
  s_heap : heap
}.

Definition log_add (s : state) (evs : list event) : state :=
  mkState (s_in s) (s_log s ++ evs) (s_heap s).

Definition set_heap (s : state) (h : heap) : state :=
  mkState (s_in s) (s_log s) h.

(* ================================================================= *)
(** ** [ask] *)

Definition QSTR : string := "[?] ".
Definition ISTR : string := ": ".

(** [fmt(x)] after [if not hasattr(fmt, "__call__"): fmt = lambda x: x]. *)
Definition apply_fmt (E : env) (fmt x : value) : result value :=
  if callable fmt then call E fmt x else Ok x.

(** [lst.remove(x)]: drops the first element equal to [x], [None] when
    there is none ([ValueError]). *)
Fixpoint remove_first (x : value) (l : list value) : option (list value) :=
  match l with
  | [] => None
  | y :: r => if py_eq y x then Some r
              else option_map (cons y) (remove_first x r)
  end.

(** The hint [print_help] shows for a callable rule. *)
Definition hint_of (v : value) : result string :=
  match v with
  | VType TInt => Ok "<int>"
  | VType TStr => Ok "<str>"
  | VFun _ n => Ok ("(" ++ n ++ ")")%string
  | _ => Raise AttributeError          (* no [__name__] *)
  end.

Fixpoint help_hints (vld : list value) : result (list string) :=
  match vld with
  | [] => Ok []
  | v :: r =>
      if negb (callable v) then help_hints r
      else match hint_of v with
           | Raise e => Raise e
           | Ok s => match help_hints r with
                     | Raise e => Raise e
                     | Ok l => Ok (s :: l)
                     end
           end
  end.

(** [print_help()], closed over [vld], [blk] and [hlp] of the running
    [ask]: the lines it echoes, or the exception it raises. *)
Definition print_help (vld : list value) (blk : bool) (hlp : string)
  : result (list event) :=
  let lst := filter (fun v => negb (callable v)) vld in
  match (if blk then remove_first (VStr "") lst else Some lst) with
  | None => Raise ValueError
  | Some lst =>
      match help_hints vld with
      | Raise e => Raise e
      | Ok hints =>
          let lst := map py_str lst ++ hints in
          Ok ((match lst with
               | [] => []
               | _ => [Echo ("[HELP] Valid input: " ++ String.concat " | " lst)%string]
               end)
              ++ (if String.eqb hlp "" then []
                  else [Echo ("[HELP] Extra notes: " ++ hlp)%string])
              ++ (if blk then [Echo "[HELP] Input may be blank."] else []))
      end
  end.

(** [[fmt(v) if fmt(v) else v for v in vld]] *)
Fixpoint fmt_rules (E : env) (fmt : value) (vld : list value)
  : result (list value) :=
  match vld with
  | [] => Ok []
  | v :: r =>
      match apply_fmt E fmt v with
      | Raise e => Raise e
      | Ok fv =>
          match fmt_rules E fmt r with
          | Raise e => Raise e
          | Ok l => Ok ((if truthy fv then fv else v) :: l)
          end
      end
  end.

(** The block under [if vld:] that sanitizes the valid inputs. *)
Definition sanitize (E : env) (fmt : value) (blk : bool) (vld : list value)
  : result (list value) :=
  match fmt_rules E fmt vld with
  | Raise e => Raise e
  | Ok l =>
      let vld := set_iter E l in
      let vld := if blk && negb (py_in (VStr "") vld)
                 then vld ++ [VStr ""] else vld in
      Ok (match py_sorted vld with
          | Some s => s
          | None => vld
          end)
  end.

(** The [for v in vld: ... else: ans = None] loop; [all] is the whole
    [vld], [vs] what is left to iterate.  The result [VNone] asks again. *)
Fixpoint match_rules (E : env) (all : list value) (ans : value)
  (vs : list value) : value :=
  match vs with
  | [] => VNone
  | v :: r =>
      if is_type v && negb (is_none (cast E ans v)) then cast E ans v
      else if callable v then
        match call E v ans with
        | Ok b => if truthy b then ans else match_rules E all ans r
        | Raise _ => match_rules E all ans r
        end
      else if py_in ans all then ans
      else match_rules E all ans r
  end.

(** Lines 404-422: format the answer, then validate it. *)
Definition validate (E : env) (fmt : value) (vld : list value) (ans : value)
  : value :=
  let ans := match apply_fmt E fmt ans with
             | Ok a => a
             | Raise _ => VNone
             end in
  match vld with
  | [] => ans
  | _ => match_rules E vld ans vld
  end.

(** The [while ans is None] loop.  [fmt], [dft], [vld], [blk] and [msg] are
    the local variables as they stand when the loop is entered. *)
Fixpoint ask_loop (E : env) (fmt dft : value) (vld : list value)
  (blk : bool) (hlp msg : string) (lines : list string) (log : list event)
  : result value * list string * list event :=
  match lines with
  | [] => (Raise EOFError, [], log ++ [Prompt msg])
  | ans :: rest =>
      let log := log ++ [Prompt msg] in
      if String.eqb "?" ans then
        match print_help vld blk hlp with
        | Raise e => (Raise e, rest, log)
        | Ok evs => ask_loop E fmt dft vld blk hlp msg rest (log ++ evs)
        end
      else if String.eqb "" ans && negb (is_none dft) then
        (apply_fmt E fmt dft, rest, log)
      else if String.eqb "" ans && negb (py_in (VStr "") vld) then
        ask_loop E fmt dft vld blk hlp msg rest log
      else
        let a := validate E fmt vld (VStr ans) in
        if is_none a then ask_loop E fmt dft vld blk hlp msg rest log
        else (Ok a, rest, log)
  end.

(** [" [%s]" % (dft if type(dft) is str else repr(dft))] *)
Definition show_dft (dft : value) : string :=
  (" [" ++ py_str dft ++ "]")%string.

(** [ask(msg, fmt, dft, vld, blk=blk, hlp=hlp)] with [shw] true.  [vld] is
    [None] or the address of the caller's list. *)
Definition ask (E : env) (msg : string) (fmt dft : value) (vld : option loc)
  (blk : bool) (hlp : string) (s : state) : result value * state :=
  (* vld = vld or []: an empty list is falsy and a new list replaces it *)
  let '(alias, items) :=
    match vld with
    | None => (None, [])
    | Some l => match h_get (s_heap s) l with
                | [] => (None, [])
                | x => (Some l, x)
                end
    end in
  let msg := (QSTR ++ msg)%string in
  match (if is_none dft then Ok VNone else apply_fmt E fmt dft) with
  | Raise e => (Raise e, s)
  | Ok dft =>
      (* if dft != None: msg += ...; vld.append(dft); blk = False *)
      let '(msg, items, h, blk) :=
        if is_none dft then (msg, items, s_heap s, blk)
        else ((msg ++ show_dft dft)%string,
              items ++ [dft],
              match alias with
              | Some l => h_append (s_heap s) l dft
              | None => s_heap s
              end,
              false) in
      let s := set_heap s h in
      match (match items with
             | [] => Ok []
             | _ => sanitize E fmt blk items
             end) with
      | Raise e => (Raise e, s)
      | Ok vld =>
          let msg := (msg ++ ISTR)%string in
          let '(r, rest, log) :=
            ask_loop E fmt dft vld blk hlp msg (s_in s) (s_log s) in
          (r, mkState rest log (s_heap s))
      end
  end.

(** [ask_yesno(msg, dft)] *)
Definition yes : list value := [VStr "y"; VStr "yes"; VStr "Y"; VStr "YES"].
Definition no : list value := [VStr "n"; VStr "no"; VStr "N"; VStr "NO"].

Definition ask_yesno (E : env) (msg : string) (dft : value) (s : state)
  : result bool * state :=
  let dft := if is_none dft then dft
             else if py_in dft yes || py_eq dft (VBool true) then VStr "y"
             else VStr "n" in
  let '(h, l) := h_alloc (s_heap s) (yes ++ no) in
  match ask E msg VNone dft (Some l) false "" (set_heap s h) with
  | (Ok a, s) => (Ok (py_in a yes), s)
  | (Raise e, s) => (Raise e, s)
  end.

(** [vld or [t]]: the caller's list when it is not empty, else a new list. *)
Definition vld_or (t : tytag) (vld : option loc) (h : heap) : heap * loc :=
  match vld with
  | Some l => match h_get h l with
              | [] => h_alloc h [VType t]
              | _ => (h, l)
              end
  | None => h_alloc h [VType t]
  end.

(** [ask_int(msg, dft, vld, hlp)] *)
Definition ask_int (E : env) (msg : string) (dft : value) (vld : option loc)
  (hlp : string) (s : state) : result value * state :=
  let '(h, l) := vld_or TInt vld (s_heap s) in
  ask E msg (VCast TInt) dft (Some l) false hlp (set_heap s h).

(** [ask_str(msg, dft, vld, blk, hlp)] with [shw] true *)
Definition ask_str (E : env) (msg : string) (dft : value) (vld : option loc)
  (blk : bool) (hlp : string) (s : state) : result value * state :=
  let '(h, l) := vld_or TStr vld (s_heap s) in
  ask E msg VNone dft (Some l) blk hlp (set_heap s h).

(* ================================================================= *)
(** ** [run_func] and [show_menu] *)

(** The four branches of [run_func] pass the stored positional and named
    arguments, leaving out the empty ones: one call in all of them. *)
Definition run_func (E : env) (entry : MenuEntry) (s : state)
  : option exn * state :=
  match func entry with
  | None => (None, s)
  | Some f => (run_action E f (args entry) (krgs entry),
               log_add s [Called f (args entry) (krgs entry)])
  end.

(** The string fields [returns] can name. *)
Inductive retfield : Type := RetName | RetDesc.

Definition getattr (entry : MenuEntry) (r : retfield) : string :=
  match r with
  | RetName => name entry
  | RetDesc => desc entry
  end.

(** The keyword arguments of [show_menu]; [None] is an absent key. *)
Record kwargs : Type := mkKw {
  k_hdr : option string;
  k_note : option string;
  k_msg : option string;
  k_dft : option value;
  k_compact : option bool;
  k_returns : option retfield;
  k_limit : option Z
}.

Definition no_kwargs : kwargs := mkKw None None None None None None None.

Definition get {A : Type} (o : option A) (d : A) : A :=
  match o with Some x => x | None => d end.

(** [if type(dft) == int: dft = str(dft)] *)
Definition dft_str (dft : value) : value :=
  match dft with
  | VInt z => VStr (str_of_Z z)
  | d => d
  end.

Definition show_banner (hdr : string) (entries : list MenuEntry)
  : list event :=
  Echo ("-- MENU" ++ (if String.eqb hdr "" then "" else ": " ++ hdr)
         ++ " --")%string
  :: map (fun i => Echo ("  (" ++ name i ++ ") " ++ desc i)%string) entries.

(** [show_menu] below its [if limit:] test. *)
Definition show_plain (E : env) (entries : list MenuEntry) (kw : kwargs)
  (s : state) : result value * state :=
  let hdr := get (k_hdr kw) "" in
  let note := get (k_note kw) "" in
  let msg := get (k_msg kw) "Enter menu selection" in
  let compact := get (k_compact kw) false in
  let returns := get (k_returns kw) RetName in
  let dft := get (k_dft kw) VNone in
  let valid := map (fun i => VStr (name i)) entries in
  let dft := dft_str dft in
  let dft := if py_in dft valid then dft else VNone in
  let s := if compact then s else log_add s (show_banner hdr entries) in
  let s := if String.eqb note "" then s
           else log_add s [Echo ("[!] " ++ note)%string] in
  let '(h, l) := h_alloc (s_heap s) valid in
  match ask E msg VNone dft (Some l) false "" (set_heap s h) with
  | (Raise e, s) => (Raise e, s)
  | (Ok choice, s) =>
      match filter (fun i => py_eq (VStr (name i)) choice) entries with
      | [] => (Raise IndexError, s)
      | entry :: _ =>
          match run_func E entry s with
          | (Some e, s) => (Raise e, s)
          | (None, s) => (Ok (VStr (getattr entry returns)), s)
          end
      end
  end.

(* ================================================================= *)
(** ** [show_limit] *)

Definition next_names : list string :=
  ["n"; "N"; "next"; "NEXT"; "->"; ">>"; ">>>"]%string.
Definition prev_names : list string :=
  ["p"; "P"; "prev"; "PREV"; "<-"; "<<"; "<<<"]%string.

Definition str_in (x : string) (l : list string) : bool :=
  existsb (String.eqb x) l.

(** The first candidate that is not in [names]. *)
Definition first_free (cands names : list string) : option string :=
  find (fun i => negb (str_in i names)) cands.

(** A slice index brought into [0 .. n]. *)
Definition slice_index (n i : Z) : Z :=
  let i := if i <? 0 then i + n else i in
  Z.max 0 (Z.min n i).

(** [l[a:b]] *)
Definition slice {A : Type} (l : list A) (a b : Z) : list A :=
  let n := Z.of_nat (List.length l) in
  let a := slice_index n a in
  let b := slice_index n b in
  firstn (Z.to_nat (b - a)) (skipn (Z.to_nat a) l).

(** The two [if] at the head of the loop body. *)
Definition clamp (n limit : Z) (w : Z * Z) : Z * Z :=
  let '(istart, iend) := w in
  let '(istart, iend) :=
    if iend >? n then (n - limit, n) else (istart, iend) in
  if istart <? 0 then (0, limit) else (istart, iend).

Record nav : Type := mkNav {
  n_group : list MenuEntry;
  n_names : list string;
  n_name : string;      (* [nnext] or [nprev] *)
  n_desc : string       (* [dnext] or [dprev] *)
}.

(** [if u > 0: for i in cands: if i not in names: ...; break].  [word] is
    "Next" or "Previous", [short] the name appended to [names]. *)
Definition add_nav (word short : string) (cands : list string)
  (u total : Z) (group : list MenuEntry) (names : list string) : nav :=
  if u >? 0 then
    match first_free cands names with
    | Some i =>
        let d := (word ++ " " ++ str_of_Z u ++ " of " ++ str_of_Z total
                  ++ " entries")%string in
        mkNav (group ++ [mkEntry i d None [] []]) (names ++ [short]) i d
    | None => mkNav group names "" ""
    end
  else mkNav group names "" "".

Record pending : Type := mkPending {
  p_window : window;
  p_dnext : string;
  p_dprev : string
}.

(** The loop body from the clamped indices to the call of [show_menu]. *)
Definition build_window (entries : list MenuEntry) (dft : value)
  (istart iend : Z) : pending :=
  let total := Z.of_nat (List.length entries) in
  let unext := total - iend in
  let uprev := istart in
  let group := slice entries istart iend in
  let names := map name group in
  let nx := add_nav "Next" "n" next_names unext total group names in
  let pv := add_nav "Previous" "p" prev_names uprev total
              (n_group nx) (n_names nx) in
  let names := n_names pv in
  let tmpdft :=
    if negb (is_none dft) then
      if negb (py_in dft (map VStr names)) then
        if str_in "n" names then VStr "n" else VNone
      else dft
    else VNone in
  mkPending
    (mkWindow istart iend (n_group pv) names (n_name nx) (n_name pv) tmpdft)
    (n_desc nx) (n_desc pv).

(** [kwargs] with [dft=tmpdft], after [limit] and [dft] were popped. *)
Definition with_dft (kw : kwargs) (d : value) : kwargs :=
  mkKw (k_hdr kw) (k_note kw) (k_msg kw) (Some d) (k_compact kw)
       (k_returns kw) None.

(** The [while True] loop.  Every turn reads a line or raises, so the
    number of unread lines bounds the turns; [None] is a spent [fuel]. *)
Fixpoint show_limit_loop (fuel : nat) (E : env) (entries : list MenuEntry)
  (limit : Z) (dft : value) (kw : kwargs) (istart iend : Z) (s : state)
  : option (result value * state) :=
  match fuel with
  | O => None
  | S fuel =>
      let '(istart, iend) :=
        clamp (Z.of_nat (List.length entries)) limit (istart, iend) in
      let p := build_window entries dft istart iend in
      let w := p_window p in
      let s := log_add s [Shown w] in
      match show_plain E (w_group w) (with_dft kw (w_tmpdft w)) s with
      | (Raise e, s) => Some (Raise e, s)
      | (Ok result, s) =>
          if py_eq result (VStr (w_nnext w))
             || py_eq result (VStr (p_dnext p)) then
            show_limit_loop fuel E entries limit dft kw
              (istart + limit) (iend + limit) s
          else if py_eq result (VStr (w_nprev w))
                  || py_eq result (VStr (p_dprev p)) then
            show_limit_loop fuel E entries limit dft kw
              (istart - limit) (iend - limit) s
          else Some (Ok result, s)
      end
  end.

Definition without_limit (kw : kwargs) : kwargs :=
  mkKw (k_hdr kw) (k_note kw) (k_msg kw) (k_dft kw) (k_compact kw)
       (k_returns kw) None.

Definition show_limit (E : env) (entries : list MenuEntry) (kw : kwargs)
  (s : state) : option (result value * state) :=
  let limit := get (k_limit kw) 5 in
  if limit <=? 0 then Some (show_plain E entries (without_limit kw) s)
  else
    let dft := dft_str (get (k_dft kw) VNone) in
    show_limit_loop (S (List.length (s_in s))) E entries limit dft kw
      0 limit s.

(** [show_menu(entries, **kwargs)]; [if limit:] is false for [0] too. *)
Definition show_menu (E : env) (entries : list MenuEntry) (kw : kwargs)
  (s : state) : option (result value * state) :=
  match k_limit kw with
  | Some l => if l =? 0 then Some (show_plain E entries kw s)
              else show_limit E entries kw s
  | None => Some (show_plain E entries kw s)
  end.

(* ================================================================= *)
(** ** [Menu] *)

Record Menu : Type := mkMenu {
  entries : list MenuEntry;
  show_kwargs : kwargs
}.

Definition Menu_add (m : Menu) (n d : string) (f : option positive)
  (a : list value) (k : list (string * value)) : Menu :=
  mkMenu (entries m ++ [mkEntry n d f a k]) (show_kwargs m).

Definition Menu_enum (m : Menu) (d : string) : Menu :=
  let n := str_of_Z (Z.of_nat (List.length (entries m)) + 1) in
  mkMenu (entries m ++ [mkEntry n d None [] []]) (show_kwargs m).

(** [enum_menu(strs, menu)] *)
Definition enum_menu (strs : list string) (m : Menu) : Menu :=
  fold_left Menu_enum strs m.

Definition or_else {A : Type} (a b : option A) : option A :=
  match a with Some x => Some x | None => b end.

(** [show_kwargs.update(kwargs)] *)
Definition update (base kw : kwargs) : kwargs :=
  mkKw (or_else (k_hdr kw) (k_hdr base))
       (or_else (k_note kw) (k_note base))
       (or_else (k_msg kw) (k_msg base))
       (or_else (k_dft kw) (k_dft base))
       (or_else (k_compact kw) (k_compact base))
       (or_else (k_returns kw) (k_returns base))
       (or_else (k_limit kw) (k_limit base)).

Definition Menu_show (E : env) (m : Menu) (kw : kwargs) (s : state)
  : option (result value * state) :=
  show_menu E (entries m) (update (show_kwargs m) kw) s.

(** [Menu.run(name)] *)
Definition Menu_run (E : env) (m : Menu) (n : string) (s : state)
  : option exn * state :=
  match find (fun e => String.eqb (name e) n) (entries m) with
  | Some e => run_func E e s
  | None => (None, s)
  end.

(* ================================================================= *)
(** ** The input source: [StdinSetup], [StdinAuto], [setinput] *)

(** Stream objects are named by a number.  [ss_stream] and [ss_original]
    are the attributes [_stream] and [original] of the module's
    [stdin_setup], set when the module is imported. *)
Record world : Type := mkWorld {
  sys_stdin : nat;                     (* the object [sys.stdin] names *)
  ss_stream : nat;
  ss_original : nat;
  content : nat -> list string;        (* unread lines of each stream *)
  w_log : list event;
  w_heap : heap
}.

Definition state_of (w : world) : state :=
  mkState (content w (sys_stdin w)) (w_log w) (w_heap w).

Definition set_content (w : world) (i : nat) (l : list string)
  : nat -> list string :=
  fun j => if Nat.eqb j i then l else content w j.

Definition world_of (w : world) (s : state) : world :=
  mkWorld (sys_stdin w) (ss_stream w) (ss_original w)
          (set_content w (sys_stdin w) (s_in s)) (s_log s) (s_heap s).

Definition set_stdin (w : world) (i : nat) : world :=
  mkWorld i (ss_stream w) (ss_original w) (content w) (w_log w) (w_heap w).

(** [stdin_setup.setup()] and [stdin_setup.teardown()] *)
Definition setup (w : world) : world := set_stdin w (ss_stream w).
Definition teardown (w : world) : world := set_stdin w (ss_original w).

Definition newline : ascii := "010"%char.

(** The lines [input()] reads one after the other from a stream that holds
    the text [s]; a last line needs no newline after it. *)
Fixpoint lines_of (s : string) : list string :=
  match s with
  | EmptyString => []
  | String c r =>
      if Ascii.eqb c newline then EmptyString :: lines_of r
      else match lines_of r with
           | [] => [String c EmptyString]
           | l :: ls => String c l :: ls
           end
  end.

(** [setinput(x)]: rewinds, empties and fills the stream [sys.stdin]. *)
Definition setinput (w : world) (x : string) : world :=
  mkWorld (sys_stdin w) (ss_stream w) (ss_original w)
          (set_content w (sys_stdin w) (lines_of x)) (w_log w) (w_heap w).

(** [StdinAuto(auto)]: [self.auto = auto or sys.argv[1:]]. *)
Definition StdinAuto (E : env) (auto : list string) : list string :=
  match auto with
  | [] => argv E
  | _ => auto
  end.

Definition StdinAuto_enter (auto : list string) (w : world) : world :=
  match auto with
  | [] => w
  | _ => setinput (setup w) (String.concat (String newline EmptyString) auto)
  end.

Definition StdinAuto_exit (w : world) : world := teardown w.

(* ================================================================= *)
(** ** [Menu.main] *)

Definition with_note (kw : kwargs) (note : string) : kwargs :=
  mkKw (k_hdr kw) (Some note) (k_msg kw) (k_dft kw) (k_compact kw)
       (k_returns kw) (k_limit kw).

(** [self.show(note=note, **kwargs)]: a [note] in [kwargs] is a second
    value for the same keyword. *)
Definition show_note (E : env) (m : Menu) (note : string) (kw : kwargs)
  (s : state) : option (result value * state) :=
  match k_note kw with
  | Some _ => Some (Raise TypeError, s)
  | None => Menu_show E m (with_note kw note) s
  end.

(** [while self.show(note=note, **kwargs) not in quit: pass] *)
Fixpoint main_loop (fuel : nat) (E : env) (m : Menu)
  (quit : option (string * string)) (kw : kwargs) (s : state)
  : option (result value * state) :=
  match fuel with
  | O => None
  | S fuel =>
      match show_note E m "Menu loops until quit." kw s with
      | None => None
      | Some (Raise e, s) => Some (Raise e, s)
      | Some (Ok r, s) =>
          match quit with
          | None => Some (Raise TypeError, s)
          | Some (qn, qd) =>
              if py_eq r (VStr qn) || py_eq r (VStr qd) then Some (Ok VNone, s)
              else main_loop fuel E m quit kw s
          end
      end
  end.

(** The body of the [with] statement. *)
Definition main_body (E : env) (m : Menu) (loop : bool)
  (quit : option (string * string)) (kw : kwargs) (s : state)
  : option (result value * state) :=
  if loop then main_loop (S (List.length (s_in s))) E m quit kw s
  else show_note E m "Menu does not loop, single entry." kw s.

(** [if quit: if self.entries[-1][:2] != quit: self.add( *quit)] *)
Definition add_quit (m : Menu) (quit : option (string * string))
  : result Menu :=
  match quit with
  | None => Ok m
  | Some (qn, qd) =>
      match rev (entries m) with
      | [] => Raise IndexError
      | e :: _ =>
          if String.eqb (name e) qn && String.eqb (desc e) qd then Ok m
          else Ok (Menu_add m qn qd None [] [])
      end
  end.

(** [Menu.main(auto, loop, quit, **kwargs)]: the result, the menu and the
    world it leaves.  [__exit__] runs however the body ends and lets an
    exception through. *)
Definition Menu_main (E : env) (m : Menu) (auto : list string) (loop : bool)
  (quit : option (string * string)) (kw : kwargs) (w : world)
  : option (result value * Menu * world) :=
  match add_quit m quit with
  | Raise e => Some (Raise e, m, w)
  | Ok m =>
      let w := StdinAuto_enter (StdinAuto E auto) w in
      match main_body E m loop quit kw (state_of w) with
      | None => None
      | Some (r, s) => Some (r, m, StdinAuto_exit (world_of w s))
      end
  end.

(** An environment without user functions; [set] lists in insertion
    order. *)
Definition std_env : env :=
  {| call_fun := fun _ _ => Raise TypeError;
     run_action := fun _ _ _ => None;
     set_iter := py_nodup;
     argv := [] |}.

Definition init_state (lines : list string) : state := mkState lines [] [].

(* ================================================================= *)
(** ** [getline], [stridxrep], [hrule], [wrap] *)

Definition HRWIDTH : Z := 65.
Definition HRCHAR : string := "-".
Definition TCHAR : string := "-".
Definition BCHAR : string := "-".

(** ["".join([c for _ in range(n)])] *)
Fixpoint repeat_str (c : string) (n : nat) : string :=
  match n with
  | O => EmptyString
  | S n => (c ++ repeat_str c n)%string
  end.

(** [s[:w]] *)
Definition str_upto (s : string) (w : Z) : string :=
  substring 0 (Z.to_nat (slice_index (Z.of_nat (String.length s)) w)) s.

(** [getline = lambda c, w: "".join([c for _ in range(w)])[:w]] *)
Definition getline (c : string) (w : Z) : string :=
  str_upto (repeat_str c (Z.to_nat w)) w.

(** [[(s[x] if x != i else r) for x in range(len(s))]], joined, from the
    position [x] on. *)
Fixpoint stridxrep_from (x : Z) (s : string) (i : Z) (r : string) : string :=
  match s with
  | EmptyString => EmptyString
  | String c rest =>
      String.append (if x =? i then r else String c EmptyString)
                    (stridxrep_from (x + 1) rest i r)
  end.

(** [stridxrep = lambda s, i, r: ...]: the text [s] with [r] in the place
    of the character at index [i]. *)
Definition stridxrep (s : string) (i : Z) (r : string) : string :=
  stridxrep_from 0 s i r.

(** [hrule(width, char)]; [None] and 0, [None] and "" select the
    defaults. *)
Definition hrule (width : option Z) (char : option string) : list event :=
  let width := match width with
               | Some w => if w =? 0 then HRWIDTH else w
               | None => HRWIDTH
               end in
  let char := match char with
              | Some c => if String.eqb c "" then HRCHAR else c
              | None => HRCHAR
              end in
  [Echo (getline char width)].

(** [for i, c in enumerate(hdr): top = stridxrep(top, i+4, hdr[i])], from
    the index [i] on. *)
Fixpoint wrap_hdr (top : string) (i : Z) (hdr : string) : string :=
  match hdr with
  | EmptyString => top
  | String c rest =>
      wrap_hdr (stridxrep top (i + 4) (String c EmptyString)) (i + 1) rest
  end.

(** The first line [wrap] echoes. *)
Definition wrap_top (tchar : string) (width : Z) (hdr : string) : string :=
  let top := ("/" ++ getline tchar (width - 1))%string in
  if String.eqb hdr "" then top
  else
    let top := stridxrep top 3 " " in
    let top := wrap_hdr top 0 hdr in
    (* after the loop [i] is the last index of [hdr] *)
    stridxrep top (Z.of_nat (String.length hdr) - 1 + 5) " ".

(** [wrap(body, width, tchar, bchar, char, hdr=hdr)] *)
Definition wrap (body : string) (width : option Z) (tchar bchar char : string)
  (hdr : string) : list event :=
  let '(tchar, bchar) :=
    if String.eqb char "" then (tchar, bchar) else (char, char) in
  let width := match width with
               | Some w => if w =? 0 then HRWIDTH else w
               | None => HRWIDTH
               end in
  [Echo (wrap_top tchar width hdr);
   Echo body;
   Echo ("\" ++ getline bchar (width - 1))%string].

(** [alert], [error] and [warn] echo the message behind a tag; [fatal]
    echoes it, pauses when asked to, and leaves by [sys.exit]. *)
Definition alert (msg : string) : list event :=
  [Echo ("[!] " ++ msg)%string].
Definition error (msg : string) : list event :=
  [Echo ("[ERROR] " ++ msg)%string].
Definition warn (msg : string) : list event :=
  [Echo ("[WARNING] " ++ msg)%string].

(** Whether a text holds a newline. *)
Fixpoint has_newline (s : string) : bool :=
  match s with
  | EmptyString => false
  | String c r => Ascii.eqb c newline || has_newline r
  end.

(** Whatever the order of iteration, the elements a set lists are
    elements of the list the set was made of. *)
Definition set_iter_sub (E : env) : Prop :=
  forall l x, In x (set_iter E l) -> In x l.

(** The entries [Menu.enum] makes of the descriptions [strs] for a menu
    that already holds [n] entries: numbered from [n + 1] on. *)
Fixpoint numbered (n : nat) (strs : list string) : list MenuEntry :=
  match strs with
  | [] => []
  | d :: r => mkEntry (str_of_Z (Z.of_nat n + 1)) d None [] []
              :: numbered (S n) r
  end.

(** The first line that is neither blank nor a request for help, and the
    lines after it. *)
Fixpoint first_answer (lines : list string)
  : option (string * list string) :=
  match lines with
  | [] => None
  | l :: r => if String.eqb "?" l || String.eqb "" l then first_answer r
              else Some (l, r)
  end.

(** [None] or an integer. *)
Definition int_or_none (v : value) : Prop :=
  v = VNone \/ exists z, v = VInt z.

(** The rules [ask_int] ends up with: the type [int] and integers. *)
Definition int_rule (v : value) : Prop :=
  v = VType TInt \/ exists z, v = VInt z.

(* ================================================================= *)
(** ** Scenarios *)

(** A store whose only object is the list [[1, 2, 3]], at address 0. *)
Definition rules123 : heap := [[VInt 1; VInt 2; VInt 3]].

(** [enum_menu] of seven strings: the entries are named "1" to "7". *)
Definition menu7 : Menu :=
  enum_menu ["a"; "b"; "c"; "d"; "e"; "f"; "g"]%string (mkMenu [] no_kwargs).

Definition menu2 : Menu :=
  enum_menu ["a"; "b"]%string (mkMenu [] no_kwargs).

Definition kw_limit (n : Z) : kwargs :=
  mkKw None None None None None None (Some n).

(** Four entries, the first of which is named "n". *)
Definition menu_n : list MenuEntry :=
  [mkEntry "n" "New" None [] []; mkEntry "b" "Build" None [] [];
   mkEntry "c" "Clean" None [] []; mkEntry "d" "Deploy" None [] []].

Definition kw_limit_dft (n : Z) (d : value) : kwargs :=
  mkKw None None None (Some d) None None (Some n).

(** An environment whose function 1 appends an exclamation mark to text. *)
Definition bang_env : env :=
  {| call_fun := fun id x =>
       match x with
       | VStr t => Ok (VStr (t ++ "!"))
       | _ => Raise TypeError
       end;
     run_action := fun _ _ _ => None;
     set_iter := py_nodup;
     argv := [] |}.

Definition bang : value := VFun 1 "bang".

(** An environment whose action 1 raises. *)
Definition boom_env : env :=
  {| call_fun := fun _ _ => Raise TypeError;
     run_action := fun id _ _ =>
       if Pos.eqb id 1 then Some (UserError "boom") else None;
     set_iter := py_nodup;
     argv := [] |}.

(** A menu with one entry bound to action 1 and one without action. *)
Definition menu_boom : Menu :=
  mkMenu [mkEntry "x" "Explode" (Some 1%positive) [] [];
          mkEntry "k" "Keep" None [] []] no_kwargs.

(** A world in which [sys.stdin] is the stream 0 the module saw when it was
    imported, holding [lines]; stream 1 is the [StringIO] of
    [stdin_setup]. *)
Definition world0 (lines : list string) : world :=
  mkWorld 0 1 0 (fun i => if Nat.eqb i 0 then lines else []) [] [].


(** The store after [ask(msg, fmt, dft, vld)] with the caller's list at
    [l]: the list gains the formatted default when it is not empty and that
    default is not [None]. *)
Definition heap_after (E : env) (fmt dft : value) (l : loc) (h : heap)
  : heap :=
  match h_get h l with
  | [] => h
  | _ =>
      if is_none dft then h
      else match apply_fmt E fmt dft with
           | Ok d => if is_none d then h else h_append h l d
           | Raise _ => h
           end
  end.

(** What one turn of the [for v in vld] loop does with the rule [v]:
    [Some y] leaves the loop with the answer [y], [None] goes on. *)
Definition rule_outcome (E : env) (all : list value) (ans v : value)
  : option value :=
  if is_type v && negb (is_none (cast E ans v)) then Some (cast E ans v)
  else if callable v then
    match call E v ans with
    | Ok b => if truthy b then Some ans else None
    | Raise _ => None
    end
  else if py_in ans all then Some ans
  else None.

(** The paginated windows a log records, in the order they were shown. *)
Definition windows_of (log : list event) : list window :=
  flat_map (fun e => match e with Shown w => [w] | _ => [] end) log.

(** The window invariant the loop of [show_limit] keeps, for [n] entries. *)
Definition window_inv (n limit : Z) (w : window) : Prop :=
  0 <= w_istart w /\ w_istart w <= w_iend w
  /\ w_iend w - w_istart w = limit
  /\ w_iend w <= Z.max n limit.

(** The window invariant as the specification words it. *)
Definition window_spec (n limit : Z) (w : window) : Prop :=
  0 <= w_istart w /\ w_istart w <= w_iend w /\ w_iend w <= n
  /\ w_iend w - w_istart w <= limit.

(** The pairs (istart, iend) of the windows a log records. *)
Definition shown_indices (log : list event) : list (Z * Z) :=
  map (fun w => (w_istart w, w_iend w)) (windows_of log).

(** [s'] continues [s]: no line was put back and the log grew by events
    that show no window. *)
Definition quiet_ext (s s' : state) : Prop :=
  (List.length (s_in s') <= List.length (s_in s))%nat
  /\ exists evs, s_log s' = s_log s ++ evs /\ windows_of evs = [].

(* ================================================================= *)
(** * Properties *)

(** ** Logs and progress of [ask] *)

Lemma windows_of_app (a b : list event) :
  windows_of (a ++ b) = windows_of a ++ windows_of b.
Proof. unfold windows_of. apply flat_map_app. Qed.

Lemma print_help_quiet vld blk hlp evs :
  print_help vld blk hlp = Ok evs -> windows_of evs = [].
Proof.
  unfold print_help.
  destruct (if blk then _ else _) as [lst|]; [|discriminate].
  destruct (help_hints vld) as [hints|]; [|discriminate].
  intros H; injection H as <-.
  rewrite !windows_of_app.
  destruct (map py_str lst ++ hints), (String.eqb hlp ""), blk; reflexivity.
Qed.

(** A turn of the loop takes a line: the unread input never grows, it
    shrinks when [ask] returns, and the log gains prompts and help only. *)
Lemma ask_loop_progress E fmt dft vld blk hlp msg lines :
  forall log r rest log',
    ask_loop E fmt dft vld blk hlp msg lines log = (r, rest, log') ->
    (List.length rest <= List.length lines)%nat
    /\ (forall a, r = Ok a -> (List.length rest < List.length lines)%nat)
    /\ exists evs, log' = log ++ evs /\ windows_of evs = [].
Proof.
  induction lines as [|ans rest0 IH]; intros log r rest log' H;
    cbn [ask_loop] in H.
  - injection H as <- <- <-. repeat split; auto.
    + intros a Ha; discriminate.
    + eexists; split; reflexivity.
  - destruct (String.eqb "?" ans).
    { destruct (print_help vld blk hlp) as [evs|e] eqn:Hh.
      - apply IH in H as (Hle & Hlt & evs' & -> & Hq).
        repeat split; [simpl; lia | intros a Ha; specialize (Hlt a Ha); simpl; lia |].
        exists ([Prompt msg] ++ evs ++ evs'). split.
        + now rewrite <- !app_assoc.
        + rewrite !windows_of_app, Hq, (print_help_quiet _ _ _ _ Hh). reflexivity.
      - injection H as <- <- <-.
        repeat split; [simpl; lia | intros a Ha; discriminate |].
        eexists; split; reflexivity. }
    destruct (String.eqb "" ans && negb (is_none dft)).
    { injection H as <- <- <-.
      repeat split; [simpl; lia | intros; simpl; lia |].
      eexists; split; reflexivity. }
    assert (Hrec : forall X,
      ask_loop E fmt dft vld blk hlp msg rest0 (log ++ [Prompt msg]) = X ->
      X = (r, rest, log') ->
      (List.length rest <= List.length (ans :: rest0))%nat
      /\ (forall a, r = Ok a -> (List.length rest < List.length (ans :: rest0))%nat)
      /\ exists evs, log' = log ++ evs /\ windows_of evs = []).
    { intros X HX ->. apply IH in HX as (Hle & Hlt & evs' & -> & Hq).
      repeat split; [simpl; lia | intros a Ha; specialize (Hlt a Ha); simpl; lia |].
      exists ([Prompt msg] ++ evs'). split.
      - now rewrite <- app_assoc.
      - rewrite windows_of_app, Hq. reflexivity. }
    destruct (String.eqb "" ans && negb (py_in (VStr "") vld)).
    { eapply Hrec; [reflexivity | exact H]. }
    destruct (is_none (validate E fmt vld (VStr ans))).
    { eapply Hrec; [reflexivity | exact H]. }
    injection H as <- <- <-.
    repeat split; [simpl; lia | intros; simpl; lia |].
    eexists; split; reflexivity.
Qed.

Lemma ask_progress E msg fmt dft vld blk hlp s r s' :
  ask E msg fmt dft vld blk hlp s = (r, s') ->
  (List.length (s_in s') <= List.length (s_in s))%nat
  /\ (forall a, r = Ok a -> (List.length (s_in s') < List.length (s_in s))%nat)
  /\ exists evs, s_log s' = s_log s ++ evs /\ windows_of evs = [].
Proof.
  unfold ask.
  destruct (match vld with None => _ | Some l => _ end) as [alias items].
  assert (Hstay : forall e (t : state),
    s_in t = s_in s -> s_log t = s_log s -> (Raise e, t) = (r, s') ->
    (List.length (s_in s') <= List.length (s_in s))%nat
    /\ (forall a, r = Ok a -> (List.length (s_in s') < List.length (s_in s))%nat)
    /\ exists evs, s_log s' = s_log s ++ evs /\ windows_of evs = []).
  { intros e t Hi Hl H. injection H as <- <-. rewrite Hi, Hl.
    repeat split; [lia | intros; discriminate |].
    exists []. now rewrite app_nil_r. }
  destruct (if is_none dft then Ok VNone else apply_fmt E fmt dft) as [d|e];
    [|now apply Hstay].
  destruct (if is_none d then _ else _) as [[[msg' items'] h] blk'].
  destruct (match items' with [] => Ok [] | _ => _ end) as [v|e];
    [|now apply Hstay].
  simpl.
  destruct (ask_loop _ _ _ _ _ _ _ _ _) as [[r0 rest] log] eqn:Hl.
  intros H; injection H as <- <-. simpl.
  exact (ask_loop_progress _ _ _ _ _ _ _ _ _ _ _ _ Hl).
Qed.

Lemma quiet_ext_refl s : quiet_ext s s.
Proof. split; [lia | exists []; now rewrite app_nil_r]. Qed.

Lemma quiet_ext_trans s1 s2 s3 :
  quiet_ext s1 s2 -> quiet_ext s2 s3 -> quiet_ext s1 s3.
Proof.
  intros (H1 & e1 & L1 & Q1) (H2 & e2 & L2 & Q2). split; [lia|].
  exists (e1 ++ e2). rewrite L2, L1, app_assoc, windows_of_app, Q1, Q2.
  now split.
Qed.

Lemma quiet_ext_log_add s evs :
  windows_of evs = [] -> quiet_ext s (log_add s evs).
Proof. intros H. split; [simpl; lia | exists evs; now split]. Qed.

Lemma quiet_ext_set_heap s h : quiet_ext s (set_heap s h).
Proof. split; [simpl; lia | exists []; simpl; now rewrite app_nil_r]. Qed.

Lemma ask_quiet E msg fmt dft vld blk hlp s r s' :
  ask E msg fmt dft vld blk hlp s = (r, s') ->
  quiet_ext s s'
  /\ (forall a, r = Ok a -> (List.length (s_in s') < List.length (s_in s))%nat).
Proof.
  intros H. apply ask_progress in H as (H1 & H2 & H3).
  repeat split; assumption.
Qed.

Lemma show_banner_quiet hdr l : windows_of (show_banner hdr l) = [].
Proof.
  unfold show_banner. cbn [windows_of flat_map app].
  induction l as [|e l IH]; [reflexivity | exact IH].
Qed.

Lemma run_func_quiet E entry s o s' :
  run_func E entry s = (o, s') -> quiet_ext s s' /\ s_in s' = s_in s.
Proof.
  unfold run_func. destruct (func entry); intros H; injection H as <- <-.
  - split; [now apply quiet_ext_log_add | reflexivity].
  - split; [apply quiet_ext_refl | reflexivity].
Qed.

(** [show_menu] without paging reads at least one line when it returns. *)
Lemma show_plain_progress E l kw s r s' :
  show_plain E l kw s = (r, s') ->
  quiet_ext s s'
  /\ (forall a, r = Ok a -> (List.length (s_in s') < List.length (s_in s))%nat).
Proof.
  unfold show_plain.
  set (s1 := if get (k_compact kw) false then s else log_add s _).
  set (s2 := if String.eqb (get (k_note kw) "") "" then s1 else log_add s1 _).
  assert (Q1 : quiet_ext s s1).
  { subst s1. destruct (get (k_compact kw) false);
      [apply quiet_ext_refl | apply quiet_ext_log_add, show_banner_quiet]. }
  assert (Q2 : quiet_ext s s2).
  { subst s2. destruct (String.eqb _ _); [exact Q1|].
    eapply quiet_ext_trans; [exact Q1 | now apply quiet_ext_log_add]. }
  assert (I2 : s_in s2 = s_in s).
  { subst s2 s1. destruct (String.eqb _ _), (get (k_compact kw) false);
      reflexivity. }
  clearbody s2. clear s1 Q1.
  destruct (h_alloc (s_heap s2) _) as [h l0].
  destruct (ask _ _ _ _ _ _ _ _) as [[choice|e] s3] eqn:Ha;
    apply ask_quiet in Ha as [Q3 L3]; cbn [s_in set_heap] in L3.
  - assert (Q : quiet_ext s s3).
    { eapply quiet_ext_trans; [exact Q2|].
      eapply quiet_ext_trans; [apply quiet_ext_set_heap | exact Q3]. }
    specialize (L3 choice eq_refl). rewrite I2 in L3.
    destruct (filter _ l) as [|entry ?].
    + intros H; injection H as <- <-. split; [exact Q | intros; discriminate].
    + destruct (run_func E entry s3) as [[e|] s4] eqn:Hr;
        apply run_func_quiet in Hr as [Q4 I4];
        intros H; injection H as <- <-;
        (split; [eapply quiet_ext_trans; eassumption |]).
      * intros; discriminate.
      * intros _ _. rewrite I4. exact L3.
  - intros H; injection H as <- <-. split; [|intros; discriminate].
    eapply quiet_ext_trans; [exact Q2|].
    eapply quiet_ext_trans; [apply quiet_ext_set_heap | exact Q3].
Qed.

(** ** The pagination window *)

Lemma clamp_inv n limit istart iend a b :
  0 <= n -> 0 < limit -> iend - istart = limit ->
  clamp n limit (istart, iend) = (a, b) ->
  0 <= a /\ a <= b /\ b - a = limit /\ b <= Z.max n limit.
Proof.
  intros Hn Hl Hd. unfold clamp.
  destruct (iend >? n) eqn:H1.
  - destruct (n - limit <? 0) eqn:H2; intros H; injection H as <- <-; lia.
  - destruct (istart <? 0) eqn:H2; intros H; injection H as <- <-; lia.
Qed.

Lemma build_window_indices entries dft istart iend :
  w_istart (p_window (build_window entries dft istart iend)) = istart
  /\ w_iend (p_window (build_window entries dft istart iend)) = iend.
Proof. split; reflexivity. Qed.

(** With more fuel than unread lines the loop of [show_limit] ends, by a
    return or an exception; every window it showed keeps the invariant. *)
Lemma show_limit_loop_spec E entries limit dft kw :
  0 < limit ->
  forall fuel istart iend s,
    iend - istart = limit ->
    (List.length (s_in s) < fuel)%nat ->
    exists r s',
      show_limit_loop fuel E entries limit dft kw istart iend s = Some (r, s')
      /\ (List.length (s_in s') <= List.length (s_in s))%nat
      /\ (forall a, r = Ok a ->
            (List.length (s_in s') < List.length (s_in s))%nat)
      /\ exists evs, s_log s' = s_log s ++ evs
           /\ Forall (window_inv (Z.of_nat (List.length entries)) limit)
                     (windows_of evs).
Proof.
  intros Hl. induction fuel as [|fuel IH]; intros istart iend s Hd Hf; [lia|].
  cbn [show_limit_loop].
  destruct (clamp _ limit (istart, iend)) as [a b] eqn:Hc.
  apply clamp_inv in Hc as Hw; [|lia|exact Hl|exact Hd].
  set (p := build_window entries dft a b).
  set (w := p_window p).
  assert (Winv : window_inv (Z.of_nat (List.length entries)) limit w).
  { unfold window_inv. subst w p.
    destruct (build_window_indices entries dft a b) as [-> ->]. exact Hw. }
  destruct (show_plain E (w_group w) (with_dft kw (w_tmpdft w))
              (log_add s [Shown w])) as [[res|e] s2] eqn:Hp;
    apply show_plain_progress in Hp as [(Hle & evs & Hlog & Hq) Hlt];
    cbn [log_add s_in s_log] in Hle, Hlog, Hlt.
  - specialize (Hlt res eq_refl).
    assert (Hdone : exists evs0, s_log s2 = s_log s ++ evs0
              /\ Forall (window_inv (Z.of_nat (List.length entries)) limit)
                        (windows_of evs0)).
    { exists ([Shown w] ++ evs). split; [now rewrite Hlog, <- app_assoc|].
      rewrite windows_of_app, Hq. cbn. constructor; [exact Winv | constructor]. }
    assert (Hrec : forall i j, j - i = limit ->
      exists r s',
        show_limit_loop fuel E entries limit dft kw i j s2 = Some (r, s')
        /\ (List.length (s_in s') <= List.length (s_in s))%nat
        /\ (forall a0, r = Ok a0 ->
              (List.length (s_in s') < List.length (s_in s))%nat)
        /\ exists evs0, s_log s' = s_log s ++ evs0
             /\ Forall (window_inv (Z.of_nat (List.length entries)) limit)
                       (windows_of evs0)).
    { intros i j Hij.
      destruct (IH i j s2 Hij ltac:(lia))
        as (r & s' & Hrun & Hle' & Hlt' & evs' & Hlog' & Hall').
      exists r, s'. repeat split; [exact Hrun | lia | |].
      - intros a0 Ha0. specialize (Hlt' a0 Ha0). lia.
      - exists (([Shown w] ++ evs) ++ evs'). split.
        + rewrite Hlog', Hlog, <- !app_assoc. reflexivity.
        + rewrite !windows_of_app, Hq. cbn.
          constructor; [exact Winv | exact Hall']. }
    destruct (py_eq res (VStr (w_nnext w)) || py_eq res (VStr (p_dnext p))).
    { apply Hrec. lia. }
    destruct (py_eq res (VStr (w_nprev w)) || py_eq res (VStr (p_dprev p))).
    { apply Hrec. lia. }
    exists (Ok res), s2. repeat split; [lia | intros; lia | exact Hdone].
  - exists (Raise e), s2. repeat split; [lia | intros; discriminate |].
    exists ([Shown w] ++ evs). split; [now rewrite Hlog, <- app_assoc|].
    rewrite windows_of_app, Hq. cbn. constructor; [exact Winv | constructor].
Qed.

(** C2, as the code has it: for every entry list, every limit > 0 and every
    input, [show_limit] ends and every window it displays satisfies
    0 <= istart <= iend <= max(len(entries), limit) and
    iend - istart = limit; so iend <= len(entries) whenever
    limit <= len(entries). *)
Theorem show_limit_window_inv E entries kw s limit :
  k_limit kw = Some limit -> 0 < limit ->
  exists r s' evs,
    show_limit E entries kw s = Some (r, s')
    /\ s_log s' = s_log s ++ evs
    /\ Forall (window_inv (Z.of_nat (List.length entries)) limit)
              (windows_of evs)
    /\ (limit <= Z.of_nat (List.length entries) ->
        Forall (window_spec (Z.of_nat (List.length entries)) limit)
               (windows_of evs)).
Proof.
  intros Hk Hl. unfold show_limit. rewrite Hk. cbn [get].
  destruct (limit <=? 0) eqn:H0; [lia|].
  destruct (show_limit_loop_spec E entries limit
              (dft_str (get (k_dft kw) VNone)) kw Hl
              (S (List.length (s_in s))) 0 limit s ltac:(lia) ltac:(lia))
    as (r & s' & Hrun & _ & _ & evs & Hlog & Hall).
  exists r, s', evs. repeat split; try assumption.
  intros Hn. eapply Forall_impl; [|exact Hall].
  intros w (A & B & C & D). unfold window_spec. lia.
Qed.

Lemma show_limit_window_inv_witness :
  k_limit (kw_limit 3) = Some 3 /\ 0 < 3 /\
  exists r s' evs,
    show_limit std_env (entries menu7) (kw_limit 3)
      (init_state ["n"; "n"; "7"]%string) = Some (r, s')
    /\ s_log s' = s_log (init_state ["n"; "n"; "7"]%string) ++ evs
    /\ Forall (window_inv (Z.of_nat (List.length (entries menu7))) 3)
              (windows_of evs)
    /\ (3 <= Z.of_nat (List.length (entries menu7)) ->
        Forall (window_spec (Z.of_nat (List.length (entries menu7))) 3)
               (windows_of evs)).
Proof.
  split; [reflexivity|]. split; [lia|].
  apply (show_limit_window_inv std_env (entries menu7) (kw_limit 3)
           (init_state ["n"; "n"; "7"]%string) 3); [reflexivity | lia].
Defined.

(** C2, as the specification words it, fails: with two entries and the limit
    5 the one window shown is (0, 5), whose end lies beyond the entries. *)
Lemma show_limit_window_counterexample :
  exists r s',
    show_limit std_env (entries menu2) (kw_limit 5)
      (init_state ["1"]%string) = Some (r, s')
    /\ shown_indices (s_log s') = [(0, 5)]
    /\ ~ Forall (window_spec (Z.of_nat (List.length (entries menu2))) 5)
                (windows_of (s_log s')).
Proof.
  eexists. eexists. split; [vm_compute; reflexivity|].
  split; [reflexivity|].
  intros H. inversion H as [|w l Hw _]; subst.
  destruct Hw as (_ & _ & Hend & _). vm_compute in Hend. now apply Hend.
Qed.

(** ** Seven entries, three at a time *)

(** C5, as the code has it: on the lines n, n, 3 the windows shown are
    (0,3), (3,6) and (4,7): the last one is pulled back so that it holds
    three entries, named 5, 6, 7, and the line 3 names none of them, is
    rejected, and the input runs out.  On the lines n, n, 7 the call
    returns "7", the name of the third entry of that last window. *)
Theorem show_limit_seven_by_three :
  (exists s',
     show_limit std_env (entries menu7) (kw_limit 3)
       (init_state ["n"; "n"; "3"]%string) = Some (Raise EOFError, s')
     /\ s_in s' = []
     /\ shown_indices (s_log s') = [(0, 3); (3, 6); (4, 7)]
     /\ option_map w_names (last (map Some (windows_of (s_log s'))) None)
        = Some ["5"; "6"; "7"; "p"]%string)
  /\ (exists s',
     show_limit std_env (entries menu7) (kw_limit 3)
       (init_state ["n"; "n"; "7"]%string) = Some (Ok (VStr "7"), s')
     /\ s_in s' = []
     /\ shown_indices (s_log s') = [(0, 3); (3, 6); (4, 7)]
     /\ option_map (fun w => map name (w_group w))
          (last (map Some (windows_of (s_log s'))) None)
        = Some ["5"; "6"; "7"; "p"]%string).
Proof.
  split; eexists; (split; [vm_compute; reflexivity|]);
    repeat split; reflexivity.
Qed.

(** C5, as the specification words it, fails: the call does not return on
    the lines n, n, 3, and the last window starts at 4, not at 6. *)
Lemma show_limit_seven_by_three_counterexample :
  (~ exists v s',
      show_limit std_env (entries menu7) (kw_limit 3)
        (init_state ["n"; "n"; "3"]%string) = Some (Ok v, s'))
  /\ (exists r s',
      show_limit std_env (entries menu7) (kw_limit 3)
        (init_state ["n"; "n"; "3"]%string) = Some (r, s')
      /\ map w_istart (windows_of (s_log s')) = [0; 3; 4]).
Proof.
  split.
  - intros (v & s' & H). vm_compute in H. discriminate H.
  - eexists. eexists. split; [vm_compute; reflexivity | reflexivity].
Qed.

(** ** The default of a paginated menu *)

(** C4 at the failing input: the entries n, b, c, d shown two at a time
    with the default d.  The first window holds n and b; the next entry is
    named N because n is taken; yet the default passed on is "n", the name
    of the first real entry, and a blank line selects that entry. *)
Theorem show_limit_default_collision :
  let w := p_window (build_window menu_n (VStr "d") 0 2) in
  map name (w_group w) = ["n"; "b"; "N"]%string
  /\ w_nnext w = "N"%string
  /\ w_tmpdft w = VStr "n"
  /\ exists s',
       show_limit std_env menu_n (kw_limit_dft 2 (VStr "d"))
         (init_state [""%string]) = Some (Ok (VStr "n"), s')
       /\ windows_of (s_log s') = [w].
Proof.
  cbv zeta. repeat split; try reflexivity.
  eexists. split; [vm_compute; reflexivity | reflexivity].
Qed.

(** ** Literal integers as rules *)

(** C1, as the code has it: with the rules [1, 2, 3] and no formatter the
    lines 5 and 2 are both rejected, text never being equal to a number,
    and the input runs out; with the formatter [partial(cast, typ=int)]
    that [ask_int] installs the line 5 is rejected and the call returns the
    integer 2 once it has read the second line. *)
Theorem ask_pick_one :
  let s0 := mkState ["5"; "2"; "rest"]%string [] rules123 in
  let p := Prompt "[?] Pick one: " in
  ask std_env "Pick one" VNone VNone (Some 0%nat) false ""
      (mkState ["5"; "2"]%string [] rules123)
    = (Raise EOFError, mkState [] [p; p; p] rules123)
  /\ ask std_env "Pick one" (VCast TInt) VNone (Some 0%nat) false "" s0
    = (Ok (VInt 2), mkState ["rest"%string] [p; p] rules123)
  /\ ask_int std_env "Pick one" VNone (Some 0%nat) "" s0
    = (Ok (VInt 2), mkState ["rest"%string] [p; p] rules123)
  /\ validate std_env (VCast TInt) [VInt 1; VInt 2; VInt 3] (VStr "5") = VNone.
Proof. cbv zeta. repeat split; vm_compute; reflexivity. Qed.

(** C1, as the specification words it, fails: without a formatter the call
    does not return 2. *)
Lemma ask_pick_one_counterexample :
  fst (ask std_env "Pick one" VNone VNone (Some 0%nat) false ""
         (mkState ["5"; "2"]%string [] rules123)) <> Ok (VInt 2).
Proof. vm_compute. discriminate. Qed.

(** ** Blank input and help *)

(** C3 at the failing input: [blk] true, no default, no rules.  The blank
    line is rejected: alone it exhausts the input, and followed by a line
    of text it is that text which is returned.  With the rule [int] the
    blank line is accepted. *)
Theorem ask_blank_without_rules :
  let p := Prompt "[?] Enter input: " in
  ask std_env "Enter input" VNone VNone None true "" (init_state [""%string])
    = (Raise EOFError, mkState [] [p; p] [])
  /\ ask std_env "Enter input" VNone VNone (Some 0%nat) true ""
       (mkState [""; "a"]%string [] [[]])
    = (Ok (VStr "a"), mkState [] [p; p] [[]])
  /\ ask std_env "Enter input" VNone VNone (Some 0%nat) true ""
       (mkState [""; "a"]%string [] [[VType TInt]])
    = (Ok (VStr ""), mkState ["a"%string] [p] [[VType TInt]]).
Proof. cbv zeta. repeat split; vm_compute; reflexivity. Qed.

(** C7 at the failing input: [blk] true, no default, no rules.  The line
    "?" makes [print_help] remove "" from a list that does not hold it, and
    [ask] raises [ValueError] with the next line unread.  With [blk] false
    the help is a no-op and the next line is returned. *)
Theorem ask_help_without_rules :
  let p := Prompt "[?] Enter input: " in
  ask std_env "Enter input" VNone VNone None true "" (init_state ["?"; "a"]%string)
    = (Raise ValueError, mkState ["a"%string] [p] [])
  /\ print_help [] true "" = Raise ValueError
  /\ ask std_env "Enter input" VNone VNone None false "" (init_state ["?"; "a"]%string)
    = (Ok (VStr "a"), mkState [] [p; p] []).
Proof. cbv zeta. repeat split; vm_compute; reflexivity. Qed.

(** ** The caller's list of rules *)

Lemma h_get_set h : forall l x,
  (l < List.length h)%nat -> h_get (h_set h l x) l = x.
Proof.
  unfold h_get. induction h as [|y h IH]; intros [|l] x Hl; simpl in *;
    try lia; [reflexivity | apply IH; lia].
Qed.

Lemma h_get_set_other h : forall l l' x,
  l <> l' -> h_get (h_set h l x) l' = h_get h l'.
Proof.
  unfold h_get. induction h as [|y h IH]; intros [|l] [|l'] x Hl; simpl;
    try reflexivity; try congruence.
  apply IH. congruence.
Qed.

Lemma h_get_bound h l : h_get h l <> [] -> (l < List.length h)%nat.
Proof.
  intros H. destruct (Nat.lt_ge_cases l (List.length h)) as [|Hge]; [assumption|].
  exfalso. apply H. unfold h_get. now apply nth_overflow.
Qed.

(** The store [ask] leaves is the one [vld.append(dft)] made. *)
Lemma ask_heap E msg fmt dft l blk hlp s r s' :
  ask E msg fmt dft (Some l) blk hlp s = (r, s') ->
  s_heap s' = heap_after E fmt dft l (s_heap s).
Proof.
  unfold ask, heap_after.
  destruct (h_get (s_heap s) l) as [|v0 items0];
    (destruct (is_none dft);
     [|destruct (apply_fmt E fmt dft) as [d|e]; [destruct (is_none d) eqn:Hd|]]);
    cbn [app is_none]; try rewrite Hd;
    try match goal with
        | |- context [sanitize ?a ?b ?c ?d] => destruct (sanitize a b c d)
        end;
    try match goal with
        | |- context [ask_loop ?a ?b ?c ?d ?e ?f ?g ?h ?i] =>
            destruct (ask_loop a b c d e f g h i) as [[? ?] ?]
        end;
    intros H; injection H as <- <-; reflexivity.
Qed.

(** C10, as the code has it: when the caller's list is not empty and the
    formatted default is not [None], [ask] appends the formatted default to
    that very list, and the list keeps it however [ask] ends; an empty list
    of the caller is replaced by a new one and stays empty.  No other list
    is touched. *)
Theorem ask_default_mutation E msg fmt dft l blk hlp s r s' :
  ask E msg fmt dft (Some l) blk hlp s = (r, s') ->
  (forall d, h_get (s_heap s) l <> [] -> is_none dft = false ->
             apply_fmt E fmt dft = Ok d -> is_none d = false ->
             h_get (s_heap s') l = h_get (s_heap s) l ++ [d])
  /\ (h_get (s_heap s) l = [] -> s_heap s' = s_heap s)
  /\ (forall l', l' <> l -> h_get (s_heap s') l' = h_get (s_heap s) l').
Proof.
  intros H. apply ask_heap in H. rewrite H. unfold heap_after.
  repeat split.
  - intros d Hne Hn Hf Hd.
    destruct (h_get (s_heap s) l) as [|v0 items0] eqn:Hg; [contradiction|].
    rewrite Hn, Hf, Hd. unfold h_append. rewrite Hg.
    apply h_get_set. apply h_get_bound. now rewrite Hg.
  - intros ->. reflexivity.
  - intros l' Hl'.
    destruct (h_get (s_heap s) l); [reflexivity|].
    destruct (is_none dft); [reflexivity|].
    destruct (apply_fmt E fmt dft) as [d|e]; [|reflexivity].
    destruct (is_none d); [reflexivity|].
    unfold h_append. apply h_get_set_other. congruence.
Qed.

Lemma ask_default_mutation_witness :
  let s := mkState [""%string] [] [[VStr "b"]] in
  ask std_env "x" VNone (VStr "a") (Some 0%nat) false "" s
    = (Ok (VStr "a"), mkState [] [Prompt "[?] x [a]: "] [[VStr "b"; VStr "a"]])
  /\ h_get [[VStr "b"; VStr "a"]] 0%nat = h_get [[VStr "b"]] 0%nat ++ [VStr "a"].
Proof.
  cbv zeta. split; [vm_compute; reflexivity|].
  refine (proj1 (ask_default_mutation std_env "x" VNone (VStr "a") 0%nat false ""
            (mkState [""%string] [] [[VStr "b"]]) (Ok (VStr "a"))
            (mkState [] [Prompt "[?] x [a]: "] [[VStr "b"; VStr "a"]]) _)
          (VStr "a") _ _ _ _);
    [vm_compute; reflexivity | discriminate | reflexivity | reflexivity
    | reflexivity].
Defined.

(** C10, as it is worded, fails: an empty list passed as rules is still
    empty after a call of [ask] with the default "a". *)
Lemma ask_default_mutation_counterexample :
  let s := mkState [""%string] [] [[]] in
  exists r s',
    ask std_env "x" VNone (VStr "a") (Some 0%nat) false "" s = (r, s')
    /\ r = Ok (VStr "a")
    /\ h_get (s_heap s') 0%nat = []
    /\ h_get (s_heap s') 0%nat <> h_get (s_heap s) 0%nat ++ [VStr "a"].
Proof.
  cbv zeta. eexists. eexists. split; [vm_compute; reflexivity|].
  split; [reflexivity|]. split; [reflexivity|]. vm_compute. discriminate.
Qed.

(** ** [Menu.main] *)

(** C9: with a quit entry and no entries, [main] raises [IndexError] from
    [self.entries[-1]]; nothing is appended, nothing is shown and the input
    source is not touched. *)
Theorem main_empty_menu E m auto loop qn qd kw w :
  entries m = [] ->
  Menu_main E m auto loop (Some (qn, qd)) kw w = Some (Raise IndexError, m, w).
Proof.
  intros H. unfold Menu_main, add_quit. rewrite H. reflexivity.
Qed.

Lemma main_empty_menu_witness :
  entries (mkMenu [] no_kwargs) = []
  /\ Menu_main std_env (mkMenu [] no_kwargs) ["q"%string] false
       (Some ("q", "Quit")%string) no_kwargs (world0 [])
     = Some (Raise IndexError, mkMenu [] no_kwargs, world0 []).
Proof.
  split; [reflexivity|].
  apply (main_empty_menu std_env (mkMenu [] no_kwargs) ["q"%string] false
           "q" "Quit" no_kwargs (world0 [])).
  reflexivity.
Defined.









(** Both ways out of [main], run: the action of entry x raises and the
    exception reaches the caller; the entry k returns.  In between,
    [sys.stdin] is the scripted stream. *)
Example main_exits :
  option_map (fun x => (fst (fst x), sys_stdin (snd x)))
    (Menu_main boom_env menu_boom ["x"%string] false
       (Some ("q", "Quit")%string) no_kwargs (world0 []))
  = Some (Raise (UserError "boom"), 0%nat)
  /\ option_map (fun x => (fst (fst x), sys_stdin (snd x)))
    (Menu_main boom_env menu_boom ["k"%string] false
       (Some ("q", "Quit")%string) no_kwargs (world0 []))
  = Some (Ok (VStr "k"), 0%nat)
  /\ option_map (fun x => (fst (fst x), sys_stdin (snd x)))
    (Menu_main boom_env menu_boom ["k"; "q"]%string true
       (Some ("q", "Quit")%string) no_kwargs (world0 []))
  = Some (Ok VNone, 0%nat)
  /\ sys_stdin (StdinAuto_enter ["x"%string] (world0 [])) = 1%nat.
Proof. repeat split; vm_compute; reflexivity. Qed.

(** ** Formatting and validating twice *)

Section Idempotence.

Variable E : env.
Variable all : list value.

Lemma match_rules_cons ans v r :
  match_rules E all ans (v :: r)
  = match rule_outcome E all ans v with
    | Some y => y
    | None => match_rules E all ans r
    end.
Proof.
  cbn [match_rules]. unfold rule_outcome.
  destruct (is_type v && negb (is_none (cast E ans v))); [reflexivity|].
  destruct (callable v).
  - destruct (call E v ans) as [b|e]; [destruct (truthy b)|]; reflexivity.
  - destruct (py_in ans all); reflexivity.
Qed.

(** Text that [int] rejects: what [str] makes of an object [int] rejects. *)
Lemma py_int_str x e :
  py_int x = Raise e -> exists e', py_int (VStr (py_str x)) = Raise e'.
Proof.
  destruct x as [|b|z|s|t|t|id nm]; cbn [py_int py_str]; intros H;
    try discriminate H.
  - eexists; reflexivity.
  - destruct (parse_int s); [discriminate H | eexists; reflexivity].
  - destruct t; eexists; reflexivity.
  - destruct t; eexists; reflexivity.
  - eexists; reflexivity.
Qed.

Lemma py_int_ok x v : py_int x = Ok v -> exists z, v = VInt z.
Proof.
  destruct x as [|b|z|s|t|t|id nm]; cbn [py_int]; intros H;
    try discriminate H.
  - injection H as <-. eauto.
  - injection H as <-. eauto.
  - destruct (parse_int s); [injection H as <-; eauto | discriminate H].
Qed.

(** The answer a rule lets through is the answer it was given, or what a
    type made of it. *)
Lemma rule_outcome_shape x v y :
  rule_outcome E all x v = Some y ->
  y = x \/ (exists t, v = VType t /\ y = cast E x v /\ is_none y = false).
Proof.
  unfold rule_outcome.
  destruct (is_type v && negb (is_none (cast E x v))) eqn:Ht.
  - intros H; injection H as <-. right.
    apply andb_prop in Ht as [Hty Hn]. destruct v; try discriminate Hty.
    eexists. repeat split. now apply negb_true_iff in Hn.
  - destruct (callable v).
    + destruct (call E v x) as [b|e]; [destruct (truthy b)|];
        intros H; try discriminate H. injection H as <-. now left.
    + destruct (py_in x all); intros H; [|discriminate H].
      injection H as <-. now left.
Qed.

(** A rule that let [y] through for [x] lets [y] through for [y]. *)
Lemma rule_outcome_fixed x v y :
  rule_outcome E all x v = Some y -> rule_outcome E all y v = Some y.
Proof.
  intros H. destruct (rule_outcome_shape _ _ _ H) as [->|(t & -> & Hy & Hn)];
    [exact H|].
  assert (Hc : cast E y (VType t) = y).
  { rewrite Hy. unfold cast, call. destruct t; cbn [construct].
    - destruct (py_int x) as [v|e] eqn:Hx.
      + destruct (py_int_ok _ _ Hx) as [z ->]. reflexivity.
      + rewrite Hy in Hn. unfold cast, call in Hn. cbn [construct] in Hn.
        rewrite Hx in Hn. discriminate Hn.
    - reflexivity. }
  unfold rule_outcome. cbn [is_type]. rewrite Hc, Hn. reflexivity.
Qed.

(** A rule that sent [x] on sends on, or lets through unchanged, each
    answer [x] can become. *)
Lemma rule_outcome_earlier x w y :
  rule_outcome E all x w = None ->
  y = x \/ y = VNone
  \/ (exists t, y = cast E x (VType t) /\ is_none y = false) ->
  rule_outcome E all y w = None \/ rule_outcome E all y w = Some y.
Proof.
  intros Hw Hy.
  destruct (is_type w) eqn:Hty.
  - destruct w as [| | | |t'| |]; try discriminate Hty.
    destruct t'.
    + (* int sent x on: int(x) raises *)
      assert (Hx : exists e, py_int x = Raise e).
      { destruct (py_int x) as [v|e] eqn:Hx; [|eauto].
        exfalso. destruct (py_int_ok _ _ Hx) as [z ->].
        revert Hw. unfold rule_outcome, cast, call.
        cbn [is_type construct callable]. rewrite Hx. cbn. discriminate. }
      destruct Hx as [e Hx].
      assert (Hnone : forall y0 e0, py_int y0 = Raise e0 ->
                rule_outcome E all y0 (VType TInt) = None).
      { intros y0 e0 H0. unfold rule_outcome, cast, call.
        cbn [is_type construct callable]. rewrite H0. reflexivity. }
      destruct Hy as [->|[->|(t & -> & Hn)]].
      * left. now apply (Hnone x e).
      * left. now apply (Hnone VNone TypeError).
      * destruct t.
        -- unfold cast, call in Hn. cbn [construct] in Hn. rewrite Hx in Hn.
           discriminate Hn.
        -- left. unfold cast, call. cbn [construct].
           destruct (py_int_str x e Hx) as [e' He']. now apply (Hnone _ e').
    + (* str lets every answer through *)
      revert Hw. unfold rule_outcome, cast, call.
      cbn [is_type construct is_none negb andb]. discriminate.
  - unfold rule_outcome. rewrite Hty. cbn [andb].
    destruct (callable w).
    + destruct (call E w y) as [b|e]; [destruct (truthy b)|]; auto.
    + destruct (py_in y all); auto.
Qed.

Lemma match_rules_scan y pre rest :
  Forall (fun w => rule_outcome E all y w = None
                   \/ rule_outcome E all y w = Some y) pre ->
  match_rules E all y (pre ++ rest) = y
  \/ match_rules E all y (pre ++ rest) = match_rules E all y rest.
Proof.
  induction 1 as [|w pre Hw _ IH]; [now right|].
  cbn [app]. rewrite match_rules_cons.
  destruct Hw as [-> | ->]; [exact IH | now left].
Qed.

(** The loop either sends the answer past every rule, or stops at the
    first rule that lets an answer through. *)
Lemma match_rules_first x vs :
  (Forall (fun w => rule_outcome E all x w = None) vs
   /\ match_rules E all x vs = VNone)
  \/ exists pre v post,
       vs = pre ++ v :: post
       /\ Forall (fun w => rule_outcome E all x w = None) pre
       /\ rule_outcome E all x v = Some (match_rules E all x vs).
Proof.
  induction vs as [|v vs IH].
  - left. split; [constructor | reflexivity].
  - rewrite match_rules_cons.
    destruct (rule_outcome E all x v) as [y|] eqn:Hv.
    + right. exists [], v, vs. repeat split; [constructor | exact Hv].
    + destruct IH as [[Hall Hn] | (pre & v' & post & -> & Hall & Hv')].
      * left. split; [now constructor | exact Hn].
      * right. exists (v :: pre), v', post.
        repeat split; [now constructor | exact Hv'].
Qed.

Lemma match_rules_idem x :
  match_rules E all (match_rules E all x all) all = match_rules E all x all.
Proof.
  destruct (match_rules_first x all)
    as [[Hall Hn] | (pre & v & post & Heq & Hall & Hv)].
  - rewrite Hn.
    assert (Hs : Forall (fun w => rule_outcome E all VNone w = None
                          \/ rule_outcome E all VNone w = Some VNone) all).
    { eapply Forall_impl; [|exact Hall]. intros w Hw.
      apply (rule_outcome_earlier x w VNone Hw). auto. }
    destruct (match_rules_scan VNone all [] Hs) as [H|H];
      rewrite app_nil_r in H; exact H.
  - set (y := match_rules E all x all) in *.
    assert (Hy : y = x \/ y = VNone
                 \/ (exists t, y = cast E x (VType t) /\ is_none y = false)).
    { destruct (rule_outcome_shape _ _ _ Hv) as [->|(t & -> & Hc & Hn)];
        [now left | right; right; eauto]. }
    assert (Hs : Forall (fun w => rule_outcome E all y w = None
                          \/ rule_outcome E all y w = Some y) pre).
    { eapply Forall_impl; [|exact Hall]. intros w Hw.
      exact (rule_outcome_earlier x w y Hw Hy). }
    rewrite Heq at 2.
    destruct (match_rules_scan y pre (v :: post) Hs) as [H|H]; rewrite H;
      [reflexivity|].
    rewrite match_rules_cons, (rule_outcome_fixed _ _ _ Hv). reflexivity.
Qed.

End Idempotence.

(** C6, as the code has it: without a formatter, formatting and validating
    the outcome of formatting and validating [x] gives that outcome again,
    the same decision ([None] asks again) and the same value, for every
    list of rules made of literals, predicates and the types [int] and
    [str]. *)
Theorem validate_idempotent E vld x :
  validate E VNone vld (validate E VNone vld x) = validate E VNone vld x.
Proof.
  unfold validate. cbn [apply_fmt callable].
  destruct vld as [|v vld]; [reflexivity|].
  apply match_rules_idem.
Qed.

(** C6, as it is worded, fails: with a formatter that appends "!" and no
    rules, "x" comes out as "x!" and "x!" comes out as "x!!". *)
Lemma validate_idempotent_counterexample :
  validate bang_env bang [] (VStr "x") = VStr "x!"
  /\ validate bang_env bang [] (validate bang_env bang [] (VStr "x"))
     = VStr "x!!"
  /\ validate bang_env bang [] (validate bang_env bang [] (VStr "x"))
     <> validate bang_env bang [] (VStr "x").
Proof.
  repeat split; try reflexivity. vm_compute. discriminate.
Qed.

(** ** Blank input with rules *)

Lemma py_in_insert_by le x y l :
  py_in x (insert_by le y l) = py_in x (y :: l).
Proof.
  unfold py_in. induction l as [|z r IH]; [reflexivity|].
  cbn [insert_by]. destruct (le y z); [reflexivity|].
  cbn [existsb] in *. rewrite IH.
  destruct (py_eq x z), (py_eq x y); reflexivity.
Qed.

Lemma py_in_isort le x l : py_in x (isort le l) = py_in x l.
Proof.
  induction l as [|y r IH]; [reflexivity|].
  cbn [isort]. rewrite py_in_insert_by. unfold py_in in *. cbn [existsb].
  now rewrite IH.
Qed.

Lemma py_in_sorted x l :
  py_in x (match py_sorted l with Some s => s | None => l end) = py_in x l.
Proof.
  unfold py_sorted. destruct (Nat.leb _ _); [reflexivity|].
  destruct (forallb is_num l); [apply py_in_isort|].
  destruct (forallb is_str l); [apply py_in_isort | reflexivity].
Qed.

Lemma fmt_rules_none E l : fmt_rules E VNone l = Ok l.
Proof.
  induction l as [|v l IH]; [reflexivity|].
  cbn [fmt_rules apply_fmt callable]. rewrite IH.
  destruct (truthy v); reflexivity.
Qed.

(** With [blk] true the sanitized rules hold "", in whatever order the
    set lists them. *)
Lemma sanitize_blank E l :
  exists vld, sanitize E VNone true l = Ok vld /\ py_in (VStr "") vld = true.
Proof.
  unfold sanitize. rewrite fmt_rules_none. eexists. split; [reflexivity|].
  rewrite py_in_sorted. cbn [andb].
  destruct (py_in (VStr "") (set_iter E l)) eqn:H; cbn [negb]; [exact H|].
  unfold py_in. rewrite existsb_app. cbn. apply orb_true_r.
Qed.

(** Blank text passes rules that hold "". *)
Lemma match_rules_blank E all vs :
  py_in (VStr "") all = true -> py_in (VStr "") vs = true ->
  match_rules E all (VStr "") vs = VStr "".
Proof.
  intros Hall. induction vs as [|v vs IH]; [discriminate|].
  intros Hvs. rewrite match_rules_cons. unfold rule_outcome.
  destruct v as [|b|z|s|t|t|id nm]; cbn [is_type callable andb];
    try (rewrite Hall; reflexivity).
  - destruct t; [|reflexivity]. cbn. apply IH. exact Hvs.
  - destruct (call E (VCast t) (VStr "")) as [b|e]; [destruct (truthy b)|];
      try reflexivity; apply IH; exact Hvs.
  - destruct (call E (VFun id nm) (VStr "")) as [b|e]; [destruct (truthy b)|];
      try reflexivity; apply IH; exact Hvs.
Qed.

(** The path that works: with [blk] true, no default, no formatter and a
    list of rules that is not empty, a blank line is accepted and [ask]
    returns "". *)
Lemma ask_blank_with_rules E msg l hlp s rest :
  h_get (s_heap s) l <> [] ->
  s_in s = ""%string :: rest ->
  ask E msg VNone VNone (Some l) true hlp s
  = (Ok (VStr ""),
     mkState rest (s_log s ++ [Prompt (QSTR ++ msg ++ ISTR)%string])
             (s_heap s)).
Proof.
  intros Hne Hin. unfold ask.
  destruct (h_get (s_heap s) l) as [|v0 items0]; [contradiction|].
  cbn [is_none set_heap s_in s_log s_heap].
  destruct (sanitize_blank E (v0 :: items0)) as (vld & -> & Hb).
  rewrite Hin. cbn [ask_loop String.eqb Ascii.eqb Bool.eqb is_none negb andb].
  rewrite Hb. cbn [negb andb].
  assert (Hv : validate E VNone vld (VStr "") = VStr "").
  { unfold validate. cbn [apply_fmt callable].
    destruct vld as [|v vld]; [reflexivity|].
    now apply match_rules_blank. }
  rewrite Hv. cbn [is_none]. reflexivity.
Qed.

(* ================================================================= *)
(** * Further properties *)

(** ** Text helpers: [getline] and [stridxrep] *)

Lemma str_length_app (a b : string) :
  String.length (a ++ b)%string = (String.length a + String.length b)%nat.
Proof. induction a as [|c a IH]; simpl; [reflexivity | now rewrite IH]. Qed.

Lemma str_app_assoc (a b c : string) :
  ((a ++ b) ++ c = a ++ (b ++ c))%string.
Proof. induction a as [|x a IH]; simpl; [reflexivity | now rewrite IH]. Qed.

Lemma str_app_nil_r (a : string) : (a ++ "")%string = a.
Proof. induction a as [|x a IH]; simpl; [reflexivity | now rewrite IH]. Qed.

Lemma length_repeat_str c n :
  String.length (repeat_str c n) = (n * String.length c)%nat.
Proof.
  induction n as [|n IH]; [reflexivity|].
  cbn [repeat_str]. rewrite str_length_app, IH. simpl. lia.
Qed.

Lemma length_substring0 s : forall n,
  (n <= String.length s)%nat -> String.length (substring 0 n s) = n.
Proof.
  induction s as [|c s IH]; intros [|n] H; simpl in *; try lia; try reflexivity.
  rewrite IH; lia.
Qed.

Lemma substring0_all s : substring 0 (String.length s) s = s.
Proof. induction s as [|c s IH]; simpl; [reflexivity | now rewrite IH]. Qed.

Lemma str_upto_all s w :
  Z.of_nat (String.length s) <= w -> str_upto s w = s.
Proof.
  intros H. unfold str_upto, slice_index.
  destruct (w <? 0) eqn:Hw; [lia|].
  replace (Z.to_nat _) with (String.length s) by lia.
  apply substring0_all.
Qed.

Lemma getline_length_core c w :
  c <> EmptyString -> String.length (getline c w) = Z.to_nat w.
Proof.
  intros Hc. unfold getline, str_upto.
  assert (Hl : (Z.to_nat w <= String.length (repeat_str c (Z.to_nat w)))%nat).
  { rewrite length_repeat_str. destruct c; [contradiction | simpl; nia]. }
  destruct (Z.le_gt_cases w 0) as [H|H].
  - replace (Z.to_nat w) with 0%nat by lia. cbn [repeat_str].
    match goal with
    | |- String.length (substring 0 ?k _) = _ => destruct k; reflexivity
    end.
  - set (n := String.length (repeat_str c (Z.to_nat w))) in *.
    replace (Z.to_nat (slice_index (Z.of_nat n) w)) with (Z.to_nat w).
    + now apply length_substring0.
    + unfold slice_index. destruct (w <? 0) eqn:Hw; lia.
Qed.

(** X1: a line made of a text that is not empty is as long as asked, and
    no line is made for a width that is not positive. *)
Theorem getline_length c w :
  c <> EmptyString -> String.length (getline c w) = Z.to_nat w.
Proof. exact (@getline_length_core c w). Qed.

Lemma getline_length_witness :
  "-"%string <> EmptyString /\ String.length (getline "-" 65) = Z.to_nat 65.
Proof.
  split; [discriminate|]. apply (getline_length "-" 65). discriminate.
Defined.

Lemma getline_char_core a w :
  getline (String a EmptyString) w
  = repeat_str (String a EmptyString) (Z.to_nat w).
Proof.
  unfold getline. destruct (Z.le_gt_cases w 0) as [H|H].
  - replace (Z.to_nat w) with 0%nat by lia. cbn [repeat_str].
    unfold str_upto.
    match goal with |- substring 0 ?k _ = _ => destruct k; reflexivity end.
  - apply str_upto_all. rewrite length_repeat_str. simpl. lia.
Qed.

(** X2: with a single character the line is that character repeated, the
    slice cutting nothing off. *)
Theorem getline_char a w :
  getline (String a EmptyString) w
  = repeat_str (String a EmptyString) (Z.to_nat w).
Proof. exact (@getline_char_core a w). Qed.

Lemma stridxrep_from_outside s : forall x i r,
  i < x \/ x + Z.of_nat (String.length s) <= i ->
  stridxrep_from x s i r = s.
Proof.
  induction s as [|c s IH]; intros x i r H; [reflexivity|].
  cbn [stridxrep_from]. cbn [String.length] in H.
  destruct (x =? i) eqn:Hx; [lia|].
  rewrite IH by lia. reflexivity.
Qed.

(** X3: an index outside the text, a negative one included, changes
    nothing: [stridxrep] does not count from the end. *)
Theorem stridxrep_outside s i r :
  i < 0 \/ Z.of_nat (String.length s) <= i -> stridxrep s i r = s.
Proof. intros H. apply stridxrep_from_outside. lia. Qed.

Lemma stridxrep_outside_witness :
  (-1 < 0 \/ Z.of_nat (String.length "abc") <= -1)
  /\ stridxrep "abc" (-1) "X" = "abc"%string.
Proof.
  split; [left; lia|]. apply (stridxrep_outside "abc" (-1) "X"). left; lia.
Defined.

Lemma stridxrep_from_app pre : forall x m rest r,
  stridxrep_from x (pre ++ String m rest)%string
    (x + Z.of_nat (String.length pre)) r
  = (pre ++ r ++ rest)%string.
Proof.
  induction pre as [|c pre IH]; intros x m rest r.
  - cbn [String.append String.length stridxrep_from].
    replace (x + Z.of_nat 0) with x by lia. rewrite Z.eqb_refl.
    rewrite (stridxrep_from_outside rest (x + 1) x r) by (left; lia).
    reflexivity.
  - cbn [String.append String.length stridxrep_from].
    destruct (x =? x + Z.of_nat (S (String.length pre))) eqn:Hx;
      [apply Z.eqb_eq in Hx; lia|].
    replace (x + Z.of_nat (S (String.length pre)))
      with ((x + 1) + Z.of_nat (String.length pre)) by lia.
    rewrite IH. reflexivity.
Qed.

Lemma stridxrep_inside_core pre m rest r :
  stridxrep (pre ++ String m rest)%string (Z.of_nat (String.length pre)) r
  = (pre ++ r ++ rest)%string.
Proof. unfold stridxrep. apply (stridxrep_from_app pre 0). Qed.

Lemma stridxrep_from_length s : forall x i a,
  String.length (stridxrep_from x s i (String a EmptyString))
  = String.length s.
Proof.
  induction s as [|c s IH]; intros x i a; [reflexivity|].
  cbn [stridxrep_from]. rewrite str_length_app, IH.
  destruct (x =? i); reflexivity.
Qed.

(** X4: inside the text, [stridxrep] puts [r] in the place of the one
    character at the index, whatever the length of [r]. *)
Theorem stridxrep_inside pre m rest r :
  stridxrep (pre ++ String m rest)%string (Z.of_nat (String.length pre)) r
  = (pre ++ r ++ rest)%string.
Proof. exact (@stridxrep_inside_core pre m rest r). Qed.

(** ** [wrap] *)

Lemma stridxrep_length s i a :
  String.length (stridxrep s i (String a EmptyString)) = String.length s.
Proof. apply stridxrep_from_length. Qed.

Lemma wrap_hdr_length hdr : forall top i,
  String.length (wrap_hdr top i hdr) = String.length top.
Proof.
  induction hdr as [|c hdr IH]; intros top i; [reflexivity|].
  cbn [wrap_hdr]. rewrite IH. apply stridxrep_length.
Qed.

Lemma wrap_top_length tchar width hdr :
  tchar <> EmptyString -> 1 <= width ->
  String.length (wrap_top tchar width hdr) = Z.to_nat width.
Proof.
  intros Hc Hw. unfold wrap_top.
  assert (H0 : String.length ("/" ++ getline tchar (width - 1))%string
               = Z.to_nat width).
  { cbn [String.append String.length]. rewrite getline_length_core by exact Hc. lia. }
  destruct (String.eqb hdr ""); [exact H0|].
  rewrite stridxrep_length, wrap_hdr_length, stridxrep_length. exact H0.
Qed.

(** X5: the top and bottom lines [wrap] echoes are exactly [width]
    characters long, whatever the header: a header that does not fit is
    cut, it never lengthens the line. *)
Theorem wrap_lines_width body width tchar bchar char hdr W :
  match width with
  | Some w => if w =? 0 then HRWIDTH else w
  | None => HRWIDTH
  end = W ->
  1 <= W ->
  char <> EmptyString \/ (tchar <> EmptyString /\ bchar <> EmptyString) ->
  exists top bottom,
    wrap body width tchar bchar char hdr = [Echo top; Echo body; Echo bottom]
    /\ String.length top = Z.to_nat W
    /\ String.length bottom = Z.to_nat W.
Proof.
  intros HW H1 Hc. unfold wrap. rewrite HW.
  destruct (String.eqb char "") eqn:Hch.
  - apply String.eqb_eq in Hch.
    destruct Hc as [Hc | [Ht Hb]]; [contradiction|].
    eexists. eexists. split; [reflexivity|]. split.
    + now apply wrap_top_length.
    + cbn [String.append String.length]. rewrite getline_length_core by exact Hb. lia.
  - apply String.eqb_neq in Hch.
    eexists. eexists. split; [reflexivity|]. split.
    + now apply wrap_top_length.
    + cbn [String.append String.length]. rewrite getline_length_core by exact Hch. lia.
Qed.

Lemma wrap_lines_width_witness :
  match Some 10 with
  | Some w => if w =? 0 then HRWIDTH else w
  | None => HRWIDTH
  end = 10
  /\ 1 <= 10
  /\ (EmptyString <> EmptyString \/ (TCHAR <> EmptyString /\ BCHAR <> EmptyString))
  /\ exists top bottom,
       wrap "body" (Some 10) TCHAR BCHAR "" "a very long header"
       = [Echo top; Echo "body"; Echo bottom]
       /\ String.length top = Z.to_nat 10
       /\ String.length bottom = Z.to_nat 10.
Proof.
  split; [reflexivity|]. split; [lia|].
  split; [right; split; discriminate|].
  apply (wrap_lines_width "body" (Some 10) TCHAR BCHAR "" "a very long header" 10);
    [reflexivity | lia | right; split; discriminate].
Defined.

Lemma repeat_str_add c n m :
  repeat_str c (n + m) = (repeat_str c n ++ repeat_str c m)%string.
Proof.
  induction n as [|n IH]; [reflexivity|].
  cbn [Nat.add repeat_str]. now rewrite IH, str_app_assoc.
Qed.

Lemma wrap_hdr_app hdr : forall pre mid post i,
  String.length mid = String.length hdr ->
  Z.of_nat (String.length pre) = i + 4 ->
  wrap_hdr (pre ++ mid ++ post)%string i hdr = (pre ++ hdr ++ post)%string.
Proof.
  induction hdr as [|c hdr IH]; intros pre mid post i Hm Hp.
  - destruct mid; [reflexivity | discriminate Hm].
  - destruct mid as [|m mid]; [discriminate Hm|].
    cbn [wrap_hdr String.append]. rewrite <- Hp, stridxrep_inside_core.
    cbn [String.append].
    replace (pre ++ String c (mid ++ post))%string
      with ((pre ++ String c EmptyString) ++ mid ++ post)%string
      by (rewrite str_app_assoc; reflexivity).
    rewrite IH.
    + rewrite str_app_assoc. reflexivity.
    + cbn [String.length] in Hm. lia.
    + rewrite str_length_app. cbn [String.length]. lia.
Qed.

(** X6: a header that is not empty and fits is written from the fifth
    character on, between two spaces, over a line drawn with one character
    [a]: slash, two [a], space, header, space, and [a] up to the width.
    (With an empty header [wrap] writes no spaces at all.) *)
Theorem wrap_top_fits a width hdr :
  hdr <> EmptyString ->
  Z.of_nat (String.length hdr) + 5 <= width ->
  wrap_top (String a EmptyString) width hdr
  = ("/" ++ repeat_str (String a EmptyString) 2 ++ " " ++ hdr ++ " "
     ++ repeat_str (String a EmptyString)
          (Z.to_nat width - 5 - String.length hdr))%string.
Proof.
  intros Hh Hw. unfold wrap_top.
  destruct (String.eqb hdr "") eqn:He;
    [apply String.eqb_eq in He; contradiction|].
  set (L := String.length hdr) in *.
  set (k := (Z.to_nat width - 5 - L)%nat).
  rewrite getline_char_core.
  set (A := String a EmptyString).
  replace (Z.to_nat (width - 1)) with (3 + (L + (1 + k)))%nat by lia.
  rewrite (repeat_str_add A 3 (L + (1 + k))), (repeat_str_add A L (1 + k)),
    (repeat_str_add A 1 k).
  (* the space before the header *)
  change ("/" ++ repeat_str A 3 ++ repeat_str A L ++ repeat_str A 1
          ++ repeat_str A k)%string
    with (("/" ++ repeat_str A 2)
          ++ String a (repeat_str A L ++ repeat_str A 1 ++ repeat_str A k))%string.
  change 3 with (Z.of_nat (String.length ("/" ++ repeat_str A 2)%string)).
  rewrite stridxrep_inside_core.
  (* the header *)
  replace (("/" ++ repeat_str A 2) ++ " " ++ repeat_str A L
           ++ repeat_str A 1 ++ repeat_str A k)%string
    with (("/" ++ repeat_str A 2 ++ " ") ++ repeat_str A L
          ++ repeat_str A 1 ++ repeat_str A k)%string by reflexivity.
  rewrite wrap_hdr_app;
    [| rewrite length_repeat_str; subst A; simpl; lia | reflexivity].
  (* the space after the header *)
  replace (("/" ++ repeat_str A 2 ++ " ") ++ hdr ++ repeat_str A 1
           ++ repeat_str A k)%string
    with ((("/" ++ repeat_str A 2 ++ " ") ++ hdr)
          ++ String a (repeat_str A k))%string
    by (rewrite str_app_assoc; reflexivity).
  replace (Z.of_nat L - 1 + 5)
    with (Z.of_nat (String.length (("/" ++ repeat_str A 2 ++ " ") ++ hdr)%string))
    by (rewrite str_length_app; fold L; simpl; lia).
  rewrite stridxrep_inside_core. rewrite str_app_assoc. reflexivity.
Qed.

Lemma wrap_top_fits_witness :
  "menu"%string <> EmptyString
  /\ Z.of_nat (String.length "menu") + 5 <= 12
  /\ wrap_top "-" 12 "menu" = "/-- menu ---"%string.
Proof.
  split; [discriminate|]. split; [simpl; lia|].
  apply (wrap_top_fits "-"%char 12 "menu"); [discriminate | simpl; lia].
Defined.

(** ** Scripted input *)

Lemma lines_of_line l rest :
  has_newline l = false ->
  lines_of (l ++ String newline rest)%string = l :: lines_of rest.
Proof.
  induction l as [|c l IH]; intros H.
  - cbn [String.append lines_of]. now rewrite Ascii.eqb_refl.
  - cbn [has_newline] in H. apply orb_false_iff in H as [Hc Hl].
    cbn [String.append lines_of]. rewrite Hc, (IH Hl). reflexivity.
Qed.

Lemma lines_of_last l :
  has_newline l = false -> l <> EmptyString -> lines_of l = [l].
Proof.
  induction l as [|c l IH]; intros H Hne; [contradiction|].
  cbn [has_newline] in H. apply orb_false_iff in H as [Hc Hl].
  cbn [lines_of]. rewrite Hc.
  destruct l as [|c' l']; [reflexivity|].
  rewrite (IH Hl) by discriminate. reflexivity.
Qed.

Lemma lines_of_join ls :
  Forall (fun l => has_newline l = false) ls ->
  ls <> [] -> last ls EmptyString <> EmptyString ->
  lines_of (String.concat (String newline EmptyString) ls) = ls.
Proof.
  induction 1 as [|x ls Hx Hall IH]; intros Hne Hlast; [contradiction|].
  destruct ls as [|y ls].
  - cbn [String.concat]. apply lines_of_last; assumption.
  - cbn [String.concat String.append].
    rewrite (lines_of_line x _ Hx). f_equal.
    apply IH; [discriminate | exact Hlast].
Qed.

Lemma lines_of_join_blank ls :
  Forall (fun l => has_newline l = false) ls ->
  lines_of (String.concat (String newline EmptyString) (ls ++ [EmptyString]))
  = ls.
Proof.
  induction 1 as [|x ls Hx Hall IH]; [reflexivity|].
  cbn [app]. destruct (ls ++ [EmptyString]) as [|y r] eqn:Hr.
  - destruct ls; discriminate Hr.
  - cbn [String.concat String.append].
    rewrite (lines_of_line x _ Hx). f_equal. exact IH.
Qed.

(** X7: the lines [StdinAuto] scripts are the lines [input] then reads
    from [sys.stdin], one for one, except that a blank last line is lost:
    the text ends with the newline before it and [input] finds the end of
    the input where the blank line was meant.  (Lines holding a newline
    would be read as several.) *)
Theorem StdinAuto_enter_lines auto w :
  Forall (fun l => has_newline l = false) auto -> auto <> [] ->
  let w' := StdinAuto_enter auto w in
  sys_stdin w' = ss_stream w
  /\ (last auto EmptyString <> EmptyString -> s_in (state_of w') = auto)
  /\ (forall ls, auto = ls ++ [EmptyString] -> s_in (state_of w') = ls).
Proof.
  intros Hall Hne. destruct auto as [|x r]; [contradiction|].
  cbn zeta. unfold StdinAuto_enter, setinput, setup, set_stdin, state_of.
  cbn [sys_stdin ss_stream content s_in]. unfold set_content.
  cbn [sys_stdin]. rewrite Nat.eqb_refl.
  split; [reflexivity|]. split.
  - intros Hl. now apply lines_of_join.
  - intros ls Heq. rewrite Heq in Hall |- *. apply lines_of_join_blank.
    apply Forall_app in Hall. tauto.
Qed.

Lemma StdinAuto_enter_lines_witness :
  Forall (fun l => has_newline l = false) ["y"; ""]%string
  /\ ["y"; ""]%string <> []
  /\ s_in (state_of (StdinAuto_enter ["y"; ""]%string (world0 [])))
     = ["y"%string].
Proof.
  split; [repeat constructor|]. split; [discriminate|].
  refine (proj2 (proj2 (StdinAuto_enter_lines ["y"; ""]%string (world0 []) _ _))
            ["y"%string] eq_refl);
    [repeat constructor | discriminate].
Defined.

(** ** The entries of a menu *)

Lemma enum_menu_numbered strs : forall m,
  entries (enum_menu strs m)
  = entries m ++ numbered (List.length (entries m)) strs.
Proof.
  unfold enum_menu.
  induction strs as [|d strs IH]; intros m; cbn [fold_left numbered].
  - now rewrite app_nil_r.
  - rewrite IH. unfold Menu_enum. cbn [entries].
    rewrite length_app, <- app_assoc. cbn [List.length app].
    replace (List.length (entries m) + 1)%nat
      with (S (List.length (entries m))) by lia.
    reflexivity.
Qed.

(** X8: [enum_menu] keeps the entries the menu has and appends one entry
    per string, in order, described by the string, without action, and
    named by its position in the whole menu, counted from 1. *)
Theorem enum_menu_entries strs m :
  entries (enum_menu strs m)
  = entries m ++ numbered (List.length (entries m)) strs
  /\ map desc (entries (enum_menu strs m)) = map desc (entries m) ++ strs
  /\ forall i d, nth_error strs i = Some d ->
       nth_error (entries (enum_menu strs m)) (List.length (entries m) + i)
       = Some (mkEntry
                 (str_of_Z (Z.of_nat (List.length (entries m) + i) + 1))
                 d None [] []).
Proof.
  rewrite enum_menu_numbered. split; [reflexivity|]. split.
  - rewrite map_app. f_equal.
    generalize (List.length (entries m)).
    induction strs as [|d strs IH]; intros n; [reflexivity|].
    cbn [numbered map desc]. now rewrite IH.
  - intros i d Hi. rewrite nth_error_app2 by lia.
    replace (List.length (entries m) + i - List.length (entries m))%nat
      with i by lia.
    revert i Hi. generalize (List.length (entries m)).
    induction strs as [|d0 strs IH]; intros n [|i] Hi; try discriminate Hi.
    + injection Hi as ->. cbn [numbered nth_error].
      replace (n + 0)%nat with n by lia. reflexivity.
    + cbn [numbered nth_error]. cbn [nth_error] in Hi.
      rewrite (IH (S n) i Hi).
      replace (S n + i)%nat with (n + S i)%nat by lia. reflexivity.
Qed.

(** X9: [Menu.run] with a name no entry has runs nothing and changes
    nothing. *)
Theorem Menu_run_absent E m n s :
  (forall e, In e (entries m) -> name e <> n) ->
  Menu_run E m n s = (None, s).
Proof.
  intros H. unfold Menu_run.
  destruct (find _ (entries m)) as [e|] eqn:Hf; [|reflexivity].
  apply find_some in Hf as [Hin He]. apply String.eqb_eq in He.
  now apply H in Hin.
Qed.

Lemma Menu_run_absent_witness :
  (forall e, In e (entries menu_boom) -> name e <> "z"%string)
  /\ Menu_run boom_env menu_boom "z" (init_state []) = (None, init_state []).
Proof.
  assert (H : forall e, In e (entries menu_boom) -> name e <> "z"%string).
  { intros e [<-|[<-|[]]]; discriminate. }
  split; [exact H|].
  apply (Menu_run_absent boom_env menu_boom "z" (init_state []) H).
Defined.

(** X10: the quit entry is appended only when the last entry is not it
    already: after [add_quit] the last entry is the quit entry, the earlier
    entries are the old ones, and a second [add_quit] adds nothing. *)
Theorem add_quit_once m qn qd :
  entries m <> [] ->
  exists m',
    add_quit m (Some (qn, qd)) = Ok m'
    /\ add_quit m' (Some (qn, qd)) = Ok m'
    /\ (entries m' = entries m
        \/ entries m' = entries m ++ [mkEntry qn qd None [] []])
    /\ exists e, last (map Some (entries m')) None = Some e
                 /\ name e = qn /\ desc e = qd.
Proof.
  intros Hne. unfold add_quit.
  destruct (rev (entries m)) as [|e r] eqn:Hr.
  { apply (f_equal (@rev _)) in Hr. rewrite rev_involutive in Hr.
    contradiction. }
  destruct (String.eqb (name e) qn && String.eqb (desc e) qd) eqn:Hq.
  - exists m. rewrite Hr, Hq. repeat split; [now left|].
    apply (f_equal (@rev _)) in Hr. rewrite rev_involutive in Hr.
    cbn [rev] in Hr. rewrite Hr, map_app. cbn [map]. rewrite last_last.
    apply andb_prop in Hq as [H1 H2].
    apply String.eqb_eq in H1, H2. eauto.
  - exists (Menu_add m qn qd None [] []). split; [reflexivity|].
    unfold Menu_add. cbn [entries]. rewrite rev_unit. cbn [name desc].
    rewrite !String.eqb_refl. cbn [andb].
    repeat split; [now right|].
    rewrite map_app. cbn [map]. rewrite last_last. eauto.
Qed.

Lemma add_quit_once_witness :
  entries menu_boom <> []
  /\ exists m',
    add_quit menu_boom (Some ("q", "Quit")%string) = Ok m'
    /\ add_quit m' (Some ("q", "Quit")%string) = Ok m'
    /\ (entries m' = entries menu_boom
        \/ entries m' = entries menu_boom ++ [mkEntry "q" "Quit" None [] []])
    /\ exists e, last (map Some (entries m')) None = Some e
                 /\ name e = "q"%string /\ desc e = "Quit"%string.
Proof.
  split; [discriminate|].
  apply (add_quit_once menu_boom "q" "Quit"). discriminate.
Defined.

(** ** What a menu returns *)

Lemma show_plain_returns_entry_core E l kw s v s' :
  show_plain E l kw s = (Ok v, s') ->
  exists e,
    In e l
    /\ v = VStr (getattr e (get (k_returns kw) RetName))
    /\ (forall f, func e = Some f ->
          run_action E f (args e) (krgs e) = None
          /\ exists pre, s_log s' = pre ++ [Called f (args e) (krgs e)]).
Proof.
  unfold show_plain.
  destruct (h_alloc _ _) as [h l0].
  destruct (ask _ _ _ _ _ _ _ _) as [[choice|e] s3]; [|discriminate].
  destruct (filter _ l) as [|entry rest] eqn:Hf; [discriminate|].
  assert (Hin : In entry l).
  { assert (H : In entry (filter (fun i => py_eq (VStr (name i)) choice) l))
      by (rewrite Hf; now left).
    now apply filter_In in H. }
  unfold run_func. destruct (func entry) as [f|] eqn:Hfun.
  - destruct (run_action E f (args entry) (krgs entry)) eqn:Hr; [discriminate|].
    intros H; injection H as <- <-.
    exists entry. split; [exact Hin|]. split; [reflexivity|].
    intros f0 Hf0. rewrite Hfun in Hf0. injection Hf0 as <-.
    split; [exact Hr|]. eexists. reflexivity.
  - intros H; injection H as <- <-.
    exists entry. split; [exact Hin|]. split; [reflexivity|].
    intros f0 Hf0. rewrite Hfun in Hf0. discriminate Hf0.
Qed.

(** X11: when [show_menu] (without paging) returns, the value is the
    requested field of an entry of the menu; that entry's action, if it has
    one, was called with the stored arguments, did not raise, and the call
    is the last event of the log. *)
Theorem show_plain_returns_entry E l kw s v s' :
  show_plain E l kw s = (Ok v, s') ->
  exists e,
    In e l
    /\ v = VStr (getattr e (get (k_returns kw) RetName))
    /\ (forall f, func e = Some f ->
          run_action E f (args e) (krgs e) = None
          /\ exists pre, s_log s' = pre ++ [Called f (args e) (krgs e)]).
Proof. exact (@show_plain_returns_entry_core E l kw s v s'). Qed.

Lemma show_plain_returns_entry_witness :
  exists s',
    show_plain std_env (entries menu2) no_kwargs (init_state ["2"%string])
      = (Ok (VStr "2"), s')
    /\ exists e, In e (entries menu2)
         /\ VStr "2" = VStr (getattr e (get (k_returns no_kwargs) RetName))
         /\ (forall f, func e = Some f ->
               run_action std_env f (args e) (krgs e) = None
               /\ exists pre, s_log s' = pre ++ [Called f (args e) (krgs e)]).
Proof.
  eexists. split; [vm_compute; reflexivity|].
  eapply (show_plain_returns_entry std_env (entries menu2) no_kwargs
            (init_state ["2"%string]) (VStr "2")).
  vm_compute. reflexivity.
Defined.

(** ** [ask] without rules *)

Lemma print_help_no_rules hlp :
  exists evs, print_help [] false hlp = Ok evs.
Proof. unfold print_help. cbn. eexists. reflexivity. Qed.

Lemma ask_loop_first_answer E hlp msg lines : forall log,
  exists log',
    ask_loop E VNone VNone [] false hlp msg lines log
    = (match first_answer lines with
       | Some (l, _) => Ok (VStr l)
       | None => Raise EOFError
       end,
       match first_answer lines with
       | Some (_, r) => r
       | None => []
       end,
       log').
Proof.
  induction lines as [|ans rest IH]; intros log.
  - eexists. reflexivity.
  - cbn [ask_loop first_answer].
    destruct (String.eqb "?" ans).
    + destruct (print_help_no_rules hlp) as [evs ->]. cbn [orb]. apply IH.
    + cbn [is_none negb andb orb py_in existsb].
      rewrite andb_false_r, andb_true_r.
      destruct (String.eqb "" ans); [apply IH|].
      cbn [validate apply_fmt callable is_none]. eexists. reflexivity.
Qed.

Lemma ask_first_answer_core E msg vld hlp s :
  match vld with
  | None => True
  | Some l => h_get (s_heap s) l = []
  end ->
  exists log,
    ask E msg VNone VNone vld false hlp s
    = (match first_answer (s_in s) with
       | Some (l, _) => Ok (VStr l)
       | None => Raise EOFError
       end,
       mkState (match first_answer (s_in s) with
                | Some (_, r) => r
                | None => []
                end) log (s_heap s)).
Proof.
  intros Hv. unfold ask.
  assert (Ha : match vld with
               | None => (@None loc, @nil value)
               | Some l => match h_get (s_heap s) l with
                           | [] => (None, [])
                           | x => (Some l, x)
                           end
               end = (None, [])).
  { destruct vld as [l|]; [rewrite Hv|]; reflexivity. }
  rewrite Ha. cbn [is_none set_heap s_in s_log s_heap].
  destruct (ask_loop_first_answer E hlp ((QSTR ++ msg) ++ ISTR)%string
              (s_in s) (s_log s)) as [log' Hl].
  rewrite Hl. eexists. reflexivity.
Qed.

(** X12: without rules, formatter, default and [blk], [ask] returns the
    first line that is neither blank nor "?", as text and unchanged,
    leaving the lines after it unread; blank lines and requests for help
    before it are passed over, and when there is no such line the input
    runs out ([EOFError]).  The same holds when the caller passes an empty
    list as rules. *)
Theorem ask_first_answer E msg vld hlp s :
  match vld with
  | None => True
  | Some l => h_get (s_heap s) l = []
  end ->
  exists log,
    ask E msg VNone VNone vld false hlp s
    = (match first_answer (s_in s) with
       | Some (l, _) => Ok (VStr l)
       | None => Raise EOFError
       end,
       mkState (match first_answer (s_in s) with
                | Some (_, r) => r
                | None => []
                end) log (s_heap s)).
Proof. exact (@ask_first_answer_core E msg vld hlp s). Qed.

Lemma ask_first_answer_witness :
  True
  /\ exists log,
    ask std_env "Name" VNone VNone None false ""
      (init_state [""; "?"; "ann"; "bob"]%string)
    = (Ok (VStr "ann"), mkState ["bob"%string] log []).
Proof.
  split; [exact I|].
  apply (ask_first_answer std_env "Name" None ""
           (init_state [""; "?"; "ann"; "bob"]%string)).
  exact I.
Defined.

Lemma h_get_alloc h x : h_get (fst (h_alloc h x)) (snd (h_alloc h x)) = x.
Proof.
  unfold h_alloc, h_get. cbn [fst snd].
  rewrite app_nth2 by lia. now rewrite Nat.sub_diag.
Qed.

(** X13: a menu without entries never returns a selection: blank lines and
    "?" are passed over, the first other line is accepted and then no entry
    is found for it ([IndexError]); with no such line the input runs out
    ([EOFError]). *)
Theorem show_plain_empty E kw s :
  exists s',
    show_plain E [] kw s
    = (match first_answer (s_in s) with
       | Some _ => Raise IndexError
       | None => Raise EOFError
       end, s').
Proof.
  unfold show_plain. cbn [map py_in existsb filter].
  set (s2 := if String.eqb (get (k_note kw) "") "" then _ else _).
  assert (I2 : s_in s2 = s_in s).
  { subst s2. destruct (String.eqb _ _), (get (k_compact kw) false);
      reflexivity. }
  clearbody s2.
  pose proof (h_get_alloc (s_heap s2) []) as Hg.
  destruct (h_alloc (s_heap s2) []) as [h l0]. cbn [fst snd] in Hg.
  destruct (ask_first_answer_core E (get (k_msg kw) "Enter menu selection")
              (Some l0) "" (set_heap s2 h) Hg) as [log Ha].
  rewrite Ha. cbn [set_heap s_in]. rewrite I2.
  destruct (first_answer (s_in s)) as [[l r]|]; eexists; reflexivity.
Qed.

(** ** The navigation entries of a paginated menu *)

Lemma str_in_In x l : str_in x l = true <-> In x l.
Proof.
  unfold str_in. rewrite existsb_exists. split.
  - intros (y & Hy & He). apply String.eqb_eq in He. now subst.
  - intros H. exists x. split; [exact H | apply String.eqb_refl].
Qed.

Lemma next_prev_disjoint a b :
  In a next_names -> In b prev_names -> a <> b.
Proof.
  unfold next_names, prev_names. cbn [In]. intros Ha Hb.
  repeat match goal with
         | H : _ \/ _ |- _ => destruct H as [H|H]
         | H : False |- _ => contradiction
         end; subst; discriminate.
Qed.

Lemma add_nav_name word short cands u total group names :
  n_name (add_nav word short cands u total group names) <> EmptyString ->
  In (n_name (add_nav word short cands u total group names)) cands
  /\ ~ In (n_name (add_nav word short cands u total group names)) names.
Proof.
  unfold add_nav. destruct (u >? 0); [|intros H; now contradiction H].
  unfold first_free. destruct (find _ cands) as [i|] eqn:Hf;
    [|intros H; now contradiction H].
  cbn [n_name]. intros _. apply find_some in Hf as [Hin Hn].
  split; [exact Hin|]. intros Hc. apply str_in_In in Hc.
  rewrite Hc in Hn. discriminate Hn.
Qed.

Lemma add_nav_names word short cands u total group names x :
  In x names -> In x (n_names (add_nav word short cands u total group names)).
Proof.
  unfold add_nav. destruct (u >? 0); [|auto].
  destruct (first_free cands names); [|auto].
  cbn [n_names]. intros H. apply in_or_app. now left.
Qed.

(** X14: the names given to the entries "next" and "previous" never clash:
    each is taken from its list of candidates, neither is the name of an
    entry shown in the window, and the two differ. *)
Theorem build_window_nav_names entries dft istart iend :
  let w := p_window (build_window entries dft istart iend) in
  let shown := map name (slice entries istart iend) in
  (w_nnext w <> EmptyString ->
     In (w_nnext w) next_names /\ ~ In (w_nnext w) shown)
  /\ (w_nprev w <> EmptyString ->
     In (w_nprev w) prev_names /\ ~ In (w_nprev w) shown)
  /\ (w_nnext w <> EmptyString -> w_nprev w <> EmptyString ->
      w_nnext w <> w_nprev w).
Proof.
  cbv zeta. unfold build_window. cbn [p_window w_nnext w_nprev].
  set (total := Z.of_nat (List.length entries)).
  set (group := slice entries istart iend).
  set (nx := add_nav "Next" "n" next_names (total - iend) total group
               (map name group)).
  set (pv := add_nav "Previous" "p" prev_names istart total
               (n_group nx) (n_names nx)).
  assert (Hn : n_name nx <> EmptyString ->
               In (n_name nx) next_names /\ ~ In (n_name nx) (map name group))
    by apply add_nav_name.
  assert (Hp : n_name pv <> EmptyString ->
               In (n_name pv) prev_names /\ ~ In (n_name pv) (map name group)).
  { intros H. destruct (add_nav_name _ _ _ _ _ _ _ H) as [H1 H2].
    split; [exact H1|]. intros Hc. apply H2.
    subst nx. now apply add_nav_names. }
  split; [exact Hn|]. split; [exact Hp|].
  intros H1 H2. apply next_prev_disjoint; [now apply Hn | now apply Hp].
Qed.

Lemma build_window_nav_names_witness :
  let w := p_window (build_window (entries menu7) VNone 3 6) in
  w_nnext w = "n"%string /\ w_nprev w = "p"%string
  /\ w_nnext w <> w_nprev w.
Proof.
  cbv zeta. split; [reflexivity|]. split; [reflexivity|].
  apply (proj2 (proj2 (build_window_nav_names (entries menu7) VNone 3 6)));
    vm_compute; discriminate.
Defined.

(** ** What a paginated menu returns *)

Lemma In_firstn {A : Type} (x : A) n : forall l, In x (firstn n l) -> In x l.
Proof.
  induction n as [|n IH]; intros [|y l] H; cbn in H; try contradiction.
  destruct H as [->|H]; [now left | right; now apply IH].
Qed.

Lemma In_skipn {A : Type} (x : A) n : forall l, In x (skipn n l) -> In x l.
Proof.
  induction n as [|n IH]; intros [|y l] H; cbn in H; try contradiction;
    try exact H.
  right. now apply IH.
Qed.

Lemma In_slice {A : Type} (x : A) l a b : In x (slice l a b) -> In x l.
Proof. unfold slice. intros H. eapply In_skipn, In_firstn, H. Qed.

Lemma add_nav_group word short cands u total group names e :
  In e (n_group (add_nav word short cands u total group names)) ->
  In e group
  \/ (name e = n_name (add_nav word short cands u total group names)
      /\ desc e = n_desc (add_nav word short cands u total group names)).
Proof.
  unfold add_nav. destruct (u >? 0); [|now left].
  destruct (first_free cands names); [|now left].
  cbn [n_group n_name n_desc]. intros H. apply in_app_or in H as [H|[<-|[]]];
    [now left | right; split; reflexivity].
Qed.

(** An entry of the group shown is an entry of the menu, or the entry
    "next", or the entry "previous". *)
Lemma build_window_group entries dft istart iend e :
  let p := build_window entries dft istart iend in
  In e (w_group (p_window p)) ->
  In e entries
  \/ (name e = w_nnext (p_window p) /\ desc e = p_dnext p)
  \/ (name e = w_nprev (p_window p) /\ desc e = p_dprev p).
Proof.
  cbv zeta. unfold build_window.
  cbn [p_window w_group w_nnext w_nprev p_dnext p_dprev].
  intros H. apply add_nav_group in H as [H|H]; [|now right; right].
  apply add_nav_group in H as [H|H]; [|now right; left].
  left. eapply In_slice, H.
Qed.

Lemma py_eq_str_refl a : py_eq (VStr a) (VStr a) = true.
Proof. cbn. apply String.eqb_refl. Qed.

Lemma show_limit_loop_entry E entries limit dft kw : forall fuel istart iend s v s',
  show_limit_loop fuel E entries limit dft kw istart iend s = Some (Ok v, s') ->
  exists e, In e entries
            /\ v = VStr (getattr e (get (k_returns kw) RetName)).
Proof.
  induction fuel as [|fuel IH]; intros istart iend s v s' H; [discriminate H|].
  cbn [show_limit_loop] in H.
  destruct (clamp _ limit (istart, iend)) as [a b].
  set (p := build_window entries dft a b) in *.
  destruct (show_plain E (w_group (p_window p))
              (with_dft kw (w_tmpdft (p_window p)))
              (log_add s [Shown (p_window p)])) as [[res|e] s2] eqn:Hp;
    [|discriminate H].
  destruct (py_eq res (VStr (w_nnext (p_window p)))
            || py_eq res (VStr (p_dnext p))) eqn:Hn; [now apply IH in H|].
  destruct (py_eq res (VStr (w_nprev (p_window p)))
            || py_eq res (VStr (p_dprev p))) eqn:Hv; [now apply IH in H|].
  injection H as <- <-.
  apply show_plain_returns_entry_core in Hp as (e & Hin & -> & _).
  cbn [with_dft k_returns] in *.
  apply orb_false_iff in Hn as [Hn1 Hn2], Hv as [Hv1 Hv2].
  apply build_window_group in Hin as [Hin|[[H1 H2]|[H1 H2]]].
  - exists e. split; [exact Hin | reflexivity].
  - exfalso. fold p in H1, H2.
    destruct (get (k_returns kw) RetName); cbn [getattr] in *.
    + rewrite H1, py_eq_str_refl in Hn1. discriminate.
    + rewrite H2, py_eq_str_refl in Hn2. discriminate.
  - exfalso. fold p in H1, H2.
    destruct (get (k_returns kw) RetName); cbn [getattr] in *.
    + rewrite H1, py_eq_str_refl in Hv1. discriminate.
    + rewrite H2, py_eq_str_refl in Hv2. discriminate.
Qed.

(** X15: whatever [show_limit] returns is the requested field of an entry
    of the menu it was given: the entries "next" and "previous" are never
    returned, selecting them only moves the window. *)
Theorem show_limit_returns_entry E entries kw s v s' :
  show_limit E entries kw s = Some (Ok v, s') ->
  exists e, In e entries
            /\ v = VStr (getattr e (get (k_returns kw) RetName)).
Proof.
  unfold show_limit. destruct (get (k_limit kw) 5 <=? 0).
  - intros H. injection H as H.
    apply show_plain_returns_entry_core in H as (e & Hin & -> & _).
    exists e. split; [exact Hin | reflexivity].
  - apply show_limit_loop_entry.
Qed.

Lemma show_limit_returns_entry_witness :
  exists s',
    show_limit std_env (entries menu7) (kw_limit 3)
      (init_state ["n"; "n"; "7"]%string) = Some (Ok (VStr "7"), s')
    /\ exists e, In e (entries menu7)
         /\ VStr "7" = VStr (getattr e (get (k_returns (kw_limit 3)) RetName)).
Proof.
  eexists. split; [vm_compute; reflexivity|].
  eapply (show_limit_returns_entry std_env (entries menu7) (kw_limit 3)
            (init_state ["n"; "n"; "7"]%string) (VStr "7")).
  vm_compute. reflexivity.
Defined.

(** ** Defaults *)

Lemma sanitize_none_ok E blk l : exists v, sanitize E VNone blk l = Ok v.
Proof. unfold sanitize. rewrite fmt_rules_none. eexists. reflexivity. Qed.

Lemma ask_blank_default_core E msg dft vld blk hlp s rest :
  is_none dft = false -> s_in s = ""%string :: rest ->
  exists s', ask E msg VNone dft vld blk hlp s = (Ok dft, s')
             /\ s_in s' = rest.
Proof.
  intros Hd Hin. unfold ask.
  destruct (match vld with None => _ | Some l => _ end) as [alias items].
  rewrite Hd. cbn [apply_fmt callable]. rewrite Hd.
  assert (Hs : exists v,
    match items ++ [dft] with
    | [] => Ok []
    | _ :: _ => sanitize E VNone false (items ++ [dft])
    end = Ok v).
  { destruct (items ++ [dft]); [eexists; reflexivity | apply sanitize_none_ok]. }
  destruct Hs as [v ->].
  cbn [set_heap s_in s_log s_heap]. rewrite Hin.
  cbn [ask_loop String.eqb Ascii.eqb Bool.eqb andb]. rewrite Hd.
  cbn [negb apply_fmt callable]. eexists. split; reflexivity.
Qed.

(** X16: without a formatter, a blank line answers with the default, given
    as it was, whatever the rules, [blk] and the help text; the line is
    the only one read. *)
Theorem ask_blank_default E msg dft vld blk hlp s rest :
  is_none dft = false -> s_in s = ""%string :: rest ->
  exists s', ask E msg VNone dft vld blk hlp s = (Ok dft, s')
             /\ s_in s' = rest.
Proof. exact (@ask_blank_default_core E msg dft vld blk hlp s rest). Qed.

Lemma ask_blank_default_witness :
  is_none (VInt 7) = false
  /\ s_in (mkState [""; "x"]%string [] [[VType TStr]]) = ""%string :: ["x"%string]
  /\ exists s',
       ask std_env "n" VNone (VInt 7) (Some 0%nat) true ""
         (mkState [""; "x"]%string [] [[VType TStr]]) = (Ok (VInt 7), s')
       /\ s_in s' = ["x"%string].
Proof.
  split; [reflexivity|]. split; [reflexivity|].
  apply (ask_blank_default std_env "n" (VInt 7) (Some 0%nat) true ""
           (mkState [""; "x"]%string [] [[VType TStr]]) ["x"%string]);
    reflexivity.
Defined.

(** X17: the default goes through the formatter twice: it is formatted
    when [ask] starts, and what a blank line returns is the formatter
    applied again to that formatted default; if this second application
    raises, [ask] raises. *)
Theorem ask_default_formatted_twice E msg fmt dft blk hlp s rest d :
  is_none dft = false -> apply_fmt E fmt dft = Ok d -> is_none d = false ->
  s_in s = ""%string :: rest ->
  fst (ask E msg fmt dft None blk hlp s) = apply_fmt E fmt d.
Proof.
  intros Hn Hf Hd Hin. unfold ask. rewrite Hn, Hf, Hd.
  cbn [app]. unfold sanitize. cbn [fmt_rules].
  destruct (apply_fmt E fmt d) as [fv|e] eqn:Hfd; [|reflexivity].
  cbn [set_heap s_in s_log s_heap]. rewrite Hin.
  cbn [ask_loop String.eqb Ascii.eqb Bool.eqb andb]. rewrite Hd.
  cbn [negb fst]. exact Hfd.
Qed.

Lemma ask_default_formatted_twice_witness :
  is_none (VStr "a") = false
  /\ apply_fmt bang_env bang (VStr "a") = Ok (VStr "a!")
  /\ fst (ask bang_env "x" bang (VStr "a") None false ""
            (init_state [""%string])) = Ok (VStr "a!!").
Proof.
  split; [reflexivity|]. split; [reflexivity|].
  apply (ask_default_formatted_twice bang_env "x" bang (VStr "a") false ""
           (init_state [""%string]) [] (VStr "a!")); reflexivity.
Defined.

(** X18: [ask_yesno] with a default answers a blank line with yes exactly
    when the default is one of y, yes, Y, YES or equal to [True], and with
    no for every other default; the blank line is the only line read. *)
Theorem ask_yesno_default E msg dft s rest :
  is_none dft = false -> s_in s = ""%string :: rest ->
  exists s',
    ask_yesno E msg dft s
    = (Ok (py_in dft yes || py_eq dft (VBool true)), s')
    /\ s_in s' = rest.
Proof.
  intros Hd Hin. unfold ask_yesno. rewrite Hd.
  destruct (h_alloc (s_heap s) (yes ++ no)) as [h l].
  destruct (py_in dft yes || py_eq dft (VBool true)).
  - destruct (ask_blank_default_core E msg (VStr "y") (Some l) false ""
                (set_heap s h) rest eq_refl Hin) as (s' & -> & Hs).
    exists s'. split; [reflexivity | exact Hs].
  - destruct (ask_blank_default_core E msg (VStr "n") (Some l) false ""
                (set_heap s h) rest eq_refl Hin) as (s' & -> & Hs).
    exists s'. split; [reflexivity | exact Hs].
Qed.

Lemma ask_yesno_default_witness :
  is_none (VBool true) = false
  /\ s_in (init_state [""; "n"]%string) = ""%string :: ["n"%string]
  /\ exists s',
       ask_yesno std_env "Proceed?" (VBool true) (init_state [""; "n"]%string)
       = (Ok (py_in (VBool true) yes || py_eq (VBool true) (VBool true)), s')
       /\ s_in s' = ["n"%string].
Proof.
  split; [reflexivity|]. split; [reflexivity|].
  apply (ask_yesno_default std_env "Proceed?" (VBool true)
           (init_state [""; "n"]%string) ["n"%string]); reflexivity.
Defined.

(** ** The loop of [Menu.main] *)

Lemma main_loop_ok E m quit kw : forall fuel s v s',
  main_loop fuel E m quit kw s = Some (Ok v, s') ->
  v = VNone /\ exists qn qd, quit = Some (qn, qd).
Proof.
  induction fuel as [|fuel IH]; intros s v s' H; [discriminate H|].
  cbn [main_loop] in H.
  destruct (show_note E m "Menu loops until quit." kw s) as [[[r|e] s1]|];
    try discriminate H.
  destruct quit as [[qn qd]|]; [|discriminate H].
  destruct (py_eq r (VStr qn) || py_eq r (VStr qd)).
  - injection H as <- <-. split; [reflexivity | eauto].
  - now apply IH in H.
Qed.

(** X19: in loop mode [main] returns nothing: when it returns, the value
    is [None] and a quit entry was given; with the quit entry switched off
    the loop cannot be left by a return, only by an exception. *)
Theorem main_loop_returns_none E m auto quit kw w v m' w' :
  Menu_main E m auto true quit kw w = Some (Ok v, m', w') ->
  v = VNone /\ exists qn qd, quit = Some (qn, qd).
Proof.
  unfold Menu_main. destruct (add_quit m quit) as [m1|e]; [|discriminate].
  unfold main_body.
  destruct (main_loop _ E m1 quit kw _) as [[[r|e] s1]|] eqn:Hl;
    try discriminate.
  intros H. injection H as <- _ _. exact (main_loop_ok _ _ _ _ _ _ _ _ Hl).
Qed.

Lemma main_loop_returns_none_witness :
  exists m' w',
    Menu_main boom_env menu_boom ["k"; "q"]%string true
      (Some ("q", "Quit")%string) no_kwargs (world0 [])
    = Some (Ok VNone, m', w')
    /\ VNone = VNone
    /\ exists qn qd, Some ("q", "Quit")%string = Some (qn, qd).
Proof.
  eexists. eexists. split; [vm_compute; reflexivity|].
  eapply (main_loop_returns_none boom_env menu_boom ["k"; "q"]%string
            (Some ("q", "Quit")%string) no_kwargs (world0 []) VNone).
  vm_compute. reflexivity.
Defined.

(** ** [ask_int] *)

(** What [ask] returns is the formatted default, after a blank line, or a
    line that went through formatting and validation. *)
Lemma ask_loop_result E fmt dft vld blk hlp msg lines : forall log v rest log',
  ask_loop E fmt dft vld blk hlp msg lines log = (Ok v, rest, log') ->
  (is_none dft = false /\ apply_fmt E fmt dft = Ok v)
  \/ (exists line, v = validate E fmt vld (VStr line) /\ is_none v = false).
Proof.
  induction lines as [|ans rest0 IH]; intros log v rest log' H;
    cbn [ask_loop] in H; [discriminate H|].
  destruct (String.eqb "?" ans).
  { destruct (print_help vld blk hlp); [|discriminate H]. now apply IH in H. }
  destruct (is_none dft) eqn:Hd; cbn [negb] in H.
  - rewrite andb_false_r in H.
    destruct (String.eqb "" ans && negb (py_in (VStr "") vld));
      [now apply IH in H|].
    destruct (is_none (validate E fmt vld (VStr ans))) eqn:Hv;
      [now apply IH in H|].
    injection H as <- _ _. right. eauto.
  - rewrite andb_true_r in H. destruct (String.eqb "" ans).
    + injection H as H _ _. left. now split.
    + cbn [andb] in H.
      destruct (is_none (validate E fmt vld (VStr ans))) eqn:Hv;
        [now apply IH in H|].
      injection H as <- _ _. right. eauto.
Qed.

Lemma cast_int_shape E x : exists v,
  call E (VCast TInt) x = Ok v /\ int_or_none v.
Proof.
  unfold call. cbn [construct].
  destruct (py_int x) as [v|e] eqn:Hx.
  - exists v. split; [reflexivity|]. right. exact (py_int_ok _ _ Hx).
  - exists VNone. split; [reflexivity | now left].
Qed.

Lemma In_insert_by le x y l : In x (insert_by le y l) -> In x (y :: l).
Proof.
  induction l as [|z l IH]; cbn [insert_by]; [auto|].
  destruct (le y z); [auto|].
  intros [<-|H]; [right; now left|].
  apply IH in H as [<-|H]; [now left | right; now right].
Qed.

Lemma In_isort le x l : In x (isort le l) -> In x l.
Proof.
  induction l as [|y l IH]; cbn [isort]; [auto|].
  intros H. apply In_insert_by in H as [<-|H]; [now left | right; auto].
Qed.

Lemma In_sorted x l :
  In x (match py_sorted l with Some s => s | None => l end) -> In x l.
Proof.
  unfold py_sorted. destruct (Nat.leb _ _); [auto|].
  destruct (forallb is_num l); [apply In_isort|].
  destruct (forallb is_str l); [apply In_isort | auto].
Qed.

Lemma fmt_rules_int E l :
  Forall int_rule l -> fmt_rules E (VCast TInt) l = Ok l.
Proof.
  induction 1 as [|v l Hv _ IH]; [reflexivity|].
  cbn [fmt_rules apply_fmt callable]. rewrite IH.
  destruct Hv as [->|[z ->]]; cbn; [reflexivity|].
  destruct (negb (z =? 0)); reflexivity.
Qed.

Lemma match_rules_int E all ans vs :
  Forall int_rule vs -> int_or_none ans ->
  int_or_none (match_rules E all ans vs).
Proof.
  intros Hvs Hans. induction Hvs as [|v vs Hv _ IH]; [now left|].
  rewrite match_rules_cons. unfold rule_outcome.
  destruct Hv as [->|[z ->]]; cbn [is_type callable andb].
  - destruct Hans as [->|[z ->]]; cbn; [exact IH | right; eauto].
  - destruct (py_in ans all); [exact Hans | exact IH].
Qed.

Lemma ask_int_core E msg dft hlp s v s' :
  set_iter_sub E ->
  ask_int E msg dft None hlp s = (Ok v, s') ->
  exists z, v = VInt z.
Proof.
  intros HE. unfold ask_int, vld_or.
  pose proof (h_get_alloc (s_heap s) [VType TInt]) as Hg.
  destruct (h_alloc (s_heap s) [VType TInt]) as [h l]. cbn [fst snd] in Hg.
  unfold ask. cbn [set_heap s_heap s_in s_log]. rewrite Hg.
  (* the formatted default *)
  assert (Hd : exists d,
    (if is_none dft then Ok VNone else apply_fmt E (VCast TInt) dft) = Ok d
    /\ int_or_none d).
  { destruct (is_none dft).
    - exists VNone. split; [reflexivity | now left].
    - cbn [apply_fmt callable]. apply cast_int_shape. }
  destruct Hd as (d & -> & Hd).
  (* the rules *)
  set (items := if is_none d then [VType TInt] else [VType TInt] ++ [d]).
  assert (Hitems : Forall int_rule items).
  { subst items. destruct Hd as [->|[z ->]]; cbn.
    - repeat constructor. 
    - constructor; [now left|]. constructor; [right; eauto | constructor]. }
  assert (Hne : items <> []).
  { subst items. destruct (is_none d); discriminate. }
  assert (Hrun : forall msg' h',
    (let '(r, rest, log) :=
       match match items with
             | [] => Ok []
             | _ :: _ => sanitize E (VCast TInt) false items
             end with
       | Raise e => (Raise e, s_in s, s_log s)
       | Ok vld => ask_loop E (VCast TInt) d vld false hlp msg' (s_in s) (s_log s)
       end in (r, mkState rest log h')) = (Ok v, s') ->
    exists z, v = VInt z).
  { intros msg' h'. destruct items as [|i0 items0] eqn:Hi; [contradiction|].
    rewrite <- Hi in *. unfold sanitize. rewrite (fmt_rules_int E items Hitems).
    cbn [andb].
    set (vld := match py_sorted (set_iter E items) with
                | Some s0 => s0
                | None => set_iter E items
                end).
    assert (Hvld : Forall int_rule vld).
    { apply Forall_forall. intros x Hx. subst vld.
      apply In_sorted, HE in Hx.
      revert x Hx. now apply Forall_forall. }
    destruct (ask_loop E (VCast TInt) d vld false hlp msg' (s_in s) (s_log s))
      as [[r rest] log] eqn:Hl.
    intros H. injection H as -> _.
    apply ask_loop_result in Hl as [[Hn Hf]|(line & Hv & Hnn)].
    - destruct Hd as [->|[z ->]]; [discriminate Hn|].
      cbn in Hf. injection Hf as <-. eauto.
    - assert (Hs : int_or_none v).
      { rewrite Hv. unfold validate. cbn [apply_fmt callable].
        destruct (cast_int_shape E (VStr line)) as (a & -> & Ha).
        destruct vld; [exact Ha | now apply match_rules_int]. }
      destruct Hs as [->|Hs]; [discriminate Hnn | exact Hs]. }
  subst items. destruct (is_none d) eqn:Hn; cbn [app] in *;
    (intros H; eapply Hrun; revert H;
     match goal with
     | |- context [sanitize ?a ?b ?c ?x] => destruct (sanitize a b c x)
     end;
     [intros H; exact H | intros H; discriminate H]).
Qed.

Lemma py_nodup_sub l : forall x, In x (py_nodup l) -> In x l.
Proof.
  induction l as [|y l IH]; intros x H; [exact H|].
  cbn [py_nodup] in H. destruct H as [<-|H]; [now left|].
  apply filter_In in H as [H _]. right. now apply IH.
Qed.

Lemma std_env_set_iter_sub : set_iter_sub std_env.
Proof. intros l x. apply py_nodup_sub. Qed.

(** X20: with its own rules, [ask_int] returns an integer whenever it
    returns: a line [int] rejects is asked again, and a default is cast to
    an integer before it is used. *)
Theorem ask_int_returns_int E msg dft hlp s v s' :
  set_iter_sub E ->
  ask_int E msg dft None hlp s = (Ok v, s') ->
  exists z, v = VInt z.
Proof. exact (@ask_int_core E msg dft hlp s v s'). Qed.

Lemma ask_int_returns_int_witness :
  set_iter_sub std_env
  /\ exists s',
       ask_int std_env "Age" (VStr "30") None ""
         (init_state ["old"; " 42 "]%string) = (Ok (VInt 42), s')
       /\ exists z, VInt 42 = VInt z.
Proof.
  split; [exact std_env_set_iter_sub|].
  eexists. split; [vm_compute; reflexivity|].
  eapply (ask_int_returns_int std_env "Age" (VStr "30") ""
            (init_state ["old"; " 42 "]%string) (VInt 42));
    [exact std_env_set_iter_sub | vm_compute; reflexivity].
Defined.

(** ** [ask_str] *)

(** X21: [ask_str] with its own rules, [blk] true and no default accepts a
    blank line and returns the empty text, reading that line only: its
    rule [str] makes the list of rules non-empty, so "" is added to it. *)
Theorem ask_str_blank E msg hlp s rest :
  s_in s = ""%string :: rest ->
  exists s',
    ask_str E msg VNone None true hlp s = (Ok (VStr ""), s')
    /\ s_in s' = rest.
Proof.
  intros Hin. unfold ask_str, vld_or.
  pose proof (h_get_alloc (s_heap s) [VType TStr]) as Hg.
  destruct (h_alloc (s_heap s) [VType TStr]) as [h l]. cbn [fst snd] in Hg.
  rewrite (ask_blank_with_rules E msg l hlp (set_heap s h) rest).
  - eexists. split; reflexivity.
  - cbn [set_heap s_heap]. rewrite Hg. discriminate.
  - exact Hin.
Qed.

Lemma ask_str_blank_witness :
  s_in (init_state [""; "x"]%string) = ""%string :: ["x"%string]
  /\ exists s',
       ask_str std_env "Name" VNone None true "" (init_state [""; "x"]%string)
       = (Ok (VStr ""), s')
       /\ s_in s' = ["x"%string].
Proof.
  split; [reflexivity|].
  apply (ask_str_blank std_env "Name" "" (init_state [""; "x"]%string)
           ["x"%string]).
  reflexivity.
Defined.
